(** * A JWT analysis pipeline: lexical scanner, Base64URL codec, structural
    parser, semantic rule engine, signer and verifier.

    Shallow embedding of the Python sources under [app/analyzer/] and the
    properties stated for them.

    Conventions of the embedding.
    - A Python [str] is the list of the bytes of its UTF-8 encoding
      ([str := list ascii]); [s.encode('utf-8')] is then the identity and
      [b.decode('utf-8')] is the well-formedness check [utf8_valid].
    - A raised exception is a value of [exn]; a function that may raise
      returns [res A := Ok a | Raise e].
    - [int(time.time())] is the explicit argument [t_actual].
    - Floating-point numbers and the keyed hash are not interpreted: they are
      variables of the sections, and [Instance] gives them values for the
      examples. *)

From Stdlib Require Import String Ascii List ZArith Lia Bool.
From Stdlib Require Decimal DecimalFacts DecimalPos DecimalZ DecimalString.
Import ListNotations.

Local Open Scope string_scope.
Local Open Scope list_scope.

(** ** Python strings *)

Definition str := list ascii.

Coercion list_ascii_of_string : string >-> list.

Definition str_eqb (a b : str) : bool :=
  if list_eq_dec ascii_dec a b then true else false.

(** The double quote and the backslash. *)
Definition quote : ascii := "034"%char.
Definition backslash : ascii := "092"%char.

(** The text after the character [c] when [t] starts with it. *)
Definition after (c : ascii) (t : str) : option str :=
  match t with
  | x :: r => if Ascii.eqb x c then Some r else None
  | [] => None
  end.

(** [c in chars] for a one-character string [c]. *)
Definition char_in (c : ascii) (chars : str) : bool :=
  existsb (Ascii.eqb c) chars.

(** [s.split(sep)] for a one-character separator. *)
Fixpoint split (sep : ascii) (s : str) : list str :=
  match s with
  | [] => [[]]
  | c :: rest =>
      if Ascii.eqb c sep then [] :: split sep rest
      else match split sep rest with
           | w :: ws => (c :: w) :: ws
           | [] => [[c]]
           end
  end.

(** [s.rstrip(c)]: every trailing [c] is removed. *)
Fixpoint rstrip (c : ascii) (s : str) : str :=
  match s with
  | [] => []
  | x :: rest =>
      match rstrip c rest with
      | [] => if Ascii.eqb x c then [] else [x]
      | r => x :: r
      end
  end.

(** [s.replace(a, b)] for one-character [a] and [b]. *)
Definition replace (a b : ascii) (s : str) : str :=
  map (fun c => if Ascii.eqb c a then b else c) s.

(** [c * n] *)
Definition str_repeat (c : ascii) (n : nat) : str := repeat c n.

(** [sep.join(parts)] *)
Fixpoint join (sep : str) (parts : list str) : str :=
  match parts with
  | [] => []
  | [p] => p
  | p :: ps => p ++ sep ++ join sep ps
  end.

(** ** Phase 1: the lexical scanner ([lexical_analyzer.py]) *)

Module Lexer.

Inductive state := q0 | q1 | q2 | q3 | q4 | q5 | qe.

(** The two keys of the inner dictionaries of [transitions]; the class
    ['other'] is [None]. *)
Inductive sym := b | d.

Definition b_chars : str :=
  "ABCDEFGHIJKLMNOPQRSTUVWXYZabcdefghijklmnopqrstuvwxyz0123456789-_".
Definition d_chars : str := ".".

Definition start_state : state := q0.

Definition is_final (q : state) : bool :=
  match q with q5 => true | _ => false end.

Definition transitions (q : state) (c : sym) : state :=
  match q, c with
  | q0, b => q1 | q0, d => qe
  | q1, b => q1 | q1, d => q2
  | q2, b => q3 | q2, d => qe
  | q3, b => q3 | q3, d => q4
  | q4, b => q5 | q4, d => qe
  | q5, b => q5 | q5, d => qe
  | qe, b => qe | qe, d => qe
  end.

Definition get_char_class (c : ascii) : option sym :=
  if char_in c b_chars then Some b
  else if char_in c d_chars then Some d
  else None.

(** The [for char in token] loop, started in [current_state]. *)
Fixpoint scan (current_state : state) (token : str) : state :=
  match token with
  | [] => current_state
  | char :: rest =>
      match get_char_class char with
      | None => qe                               (* break *)
      | Some cls => scan (transitions current_state cls) rest
      end
  end.

(** The dictionary returned by [analyze]; an absent key is [None]. *)
Record result := mkResult {
  valid : bool;
  tokens : list str;
  header : option str;
  payload : option str;
  signature : option str;
  error : option str
}.

Definition analyze (token : str) : result :=
  let current_state := scan start_state token in
  let isAccepted := is_final current_state in
  if isAccepted then
    let tokens := split "." token in
    {| valid := true;
       tokens := tokens;
       header := Some (nth 0 tokens []);
       payload := Some (nth 1 tokens []);
       signature := Some (nth 2 tokens []);
       error := None |}
  else
    {| valid := false;
       tokens := [];
       header := None; payload := None; signature := None;
       error := Some ("Invalid JWT format" : str) |}.

(** The alphabet of the specification: [[A-Za-z0-9-_]]. *)
Definition base64url_char (c : ascii) : Prop :=
  let n := nat_of_ascii c in
  (65 <= n <= 90) \/ (97 <= n <= 122) \/ (48 <= n <= 57) \/ n = 45 \/ n = 95.

(** A nonempty run of alphabet characters: the [B+] of the specification. *)
Definition segment (s : str) : Prop := s <> [] /\ Forall base64url_char s.

End Lexer.

(** ** Python exceptions *)

(** The exception classes the pipeline raises or meets. Every class but
    [TypeError], [KeyError], [RecursionError] and [JSONParseError] is a
    subclass of [ValueError] ([is_ValueError]). The semantic errors carry the claim they
    are about. *)
Inductive exn : Type :=
| TypeError
| KeyError
| RecursionError
| JSONParseError                       (* syntactic_analyzer.JSONParseError *)
| ValueError                           (* a plain ValueError *)
| BinasciiError                        (* base64.binascii.Error *)
| UnicodeDecodeError
| JSONDecodeError                      (* json.JSONDecodeError *)
| SyntaxValidationError                (* ValueError("Validación sintáctica fallida: ...") *)
| UnsupportedAlgorithm                 (* ValueError("Algoritmo no soportado: ...") *)
| UnicodeEncodeError
| MissingClaimError (claim : str)
| InvalidDataTypeError (claim : str)
| InvalidValueError (claim : str)
| ExpirationDateError
| NotActiveTokenError.

Definition is_ValueError (e : exn) : bool :=
  match e with
  | TypeError | KeyError | RecursionError | JSONParseError => false
  | _ => true
  end.

Inductive res (A : Type) : Type :=
| Ok (a : A)
| Raise (e : exn).
Arguments Ok {A} a.
Arguments Raise {A} e.

Definition bind {A B} (r : res A) (k : A -> res B) : res B :=
  match r with
  | Ok a => k a
  | Raise e => Raise e
  end.

Notation "'do' x <- r ; k" := (bind r (fun x => k))
  (at level 10, x name, r at level 100, k at level 200).
Notation "'do' ' p <- r ; k" := (bind r (fun p => k))
  (at level 10, p strict pattern, r at level 100, k at level 200).

(** ** UTF-8 text *)

Module Utf8.

Definition in_range (lo hi : nat) (c : ascii) : bool :=
  ((lo <=? nat_of_ascii c) && (nat_of_ascii c <=? hi))%nat.

Definition is_ascii (c : ascii) : bool := in_range 0 127 c.

(** A continuation byte [10xxxxxx]. *)
Definition cont (c : ascii) : bool := in_range 128 191 c.

(** [bytes.decode('utf-8')] succeeds: the bytes are well-formed UTF-8
    (Unicode, table 3-7: shortest forms only, no surrogate, at most
    U+10FFFF). *)
Fixpoint utf8_valid (bs : list ascii) : bool :=
  match bs with
  | [] => true
  | b0 :: r0 =>
      if is_ascii b0 then utf8_valid r0
      else match r0 with
      | [] => false
      | b1 :: r1 =>
          if in_range 194 223 b0 then cont b1 && utf8_valid r1
          else match r1 with
          | [] => false
          | b2 :: r2 =>
              if in_range 224 239 b0 then
                (if in_range 224 224 b0 then in_range 160 191 b1
                 else if in_range 237 237 b0 then in_range 128 159 b1
                 else cont b1)
                && cont b2 && utf8_valid r2
              else match r2 with
              | [] => false
              | b3 :: r3 =>
                  in_range 240 244 b0
                  && (if in_range 240 240 b0 then in_range 144 191 b1
                      else if in_range 244 244 b0 then in_range 128 143 b1
                      else cont b1)
                  && cont b2 && cont b3 && utf8_valid r3
              end
          end
      end
  end.

Definition byte_val (c : ascii) : Z := Z.of_nat (nat_of_ascii c).
Definition byte_of (z : Z) : ascii := ascii_of_N (Z.to_N z).

(** [chr(n)]: the bytes of the character of code point [n]. A surrogate
    ([0xD800 <= n <= 0xDFFF]) takes the three-byte form, which
    [utf8_valid] refuses as [str.encode] does. *)
Definition chr (n : Z) : str :=
  (if n <? 128 then [byte_of n]
   else if n <? 2048 then [byte_of (192 + n / 64); byte_of (128 + n mod 64)]
   else if n <? 65536 then
     [byte_of (224 + n / 4096); byte_of (128 + (n / 64) mod 64);
      byte_of (128 + n mod 64)]
   else
     [byte_of (240 + n / 262144); byte_of (128 + (n / 4096) mod 64);
      byte_of (128 + (n / 64) mod 64); byte_of (128 + n mod 64)])%Z.

(** [len(s)]: the number of characters, one for each byte that is not a
    continuation byte. *)
Definition py_len (s : str) : nat :=
  length (filter (fun c => negb (cont c)) s).

End Utf8.

(** ** The [base64] module of the Python library

    [b64encode] is [binascii.b2a_base64] without newline and
    [b64decode] is [binascii.a2b_base64] in its default, non-strict mode:
    characters outside the alphabet are skipped, and decoding stops at the
    padding that completes a quad. A 6-bit value is an [ascii] whose two
    high bits are clear. *)

Module Base64.

Definition std_alphabet : str :=
  "ABCDEFGHIJKLMNOPQRSTUVWXYZabcdefghijklmnopqrstuvwxyz0123456789+/".

Definition BASE64_PAD : ascii := "="%char.

(** [table_b2a_base64[v]] *)
Definition b2a (v : ascii) : ascii := nth (nat_of_ascii v) std_alphabet BASE64_PAD.

Fixpoint index_of (c : ascii) (l : str) (i : nat) : option nat :=
  match l with
  | [] => None
  | x :: rest => if Ascii.eqb c x then Some i else index_of c rest (S i)
  end.

(** [table_a2b_base64[c]]; [None] for a character outside the alphabet. *)
Definition a2b (c : ascii) : option ascii :=
  option_map ascii_of_nat (index_of c std_alphabet 0).

(** The four 6-bit values of three bytes [x y z]:
    [x >> 2], [((x & 3) << 4) | (y >> 4)], [((y & 0xf) << 2) | (z >> 6)],
    [z & 0x3f]. *)
Definition enc1 (x : ascii) : ascii :=
  let 'Ascii _ _ x2 x3 x4 x5 x6 x7 := x in
  Ascii x2 x3 x4 x5 x6 x7 false false.
Definition enc2 (x y : ascii) : ascii :=
  let 'Ascii x0 x1 _ _ _ _ _ _ := x in
  let 'Ascii _ _ _ _ y4 y5 y6 y7 := y in
  Ascii y4 y5 y6 y7 x0 x1 false false.
Definition enc3 (y z : ascii) : ascii :=
  let 'Ascii y0 y1 y2 y3 _ _ _ _ := y in
  let 'Ascii _ _ _ _ _ _ z6 z7 := z in
  Ascii z6 z7 y0 y1 y2 y3 false false.
Definition enc4 (z : ascii) : ascii :=
  let 'Ascii z0 z1 z2 z3 z4 z5 _ _ := z in
  Ascii z0 z1 z2 z3 z4 z5 false false.

Fixpoint b64encode (s : list ascii) : str :=
  match s with
  | [] => []
  | [x] => [b2a (enc1 x); b2a (enc2 x zero); BASE64_PAD; BASE64_PAD]
  | [x; y] => [b2a (enc1 x); b2a (enc2 x y); b2a (enc3 y zero); BASE64_PAD]
  | x :: y :: z :: rest =>
      b2a (enc1 x) :: b2a (enc2 x y) :: b2a (enc3 y z) :: b2a (enc4 z)
      :: b64encode rest
  end.

(** [bytes.translate] of the URL-safe alphabet: ['+'] to ['-'], ['/'] to ['_']. *)
Definition urlsafe_b64encode (s : list ascii) : str :=
  replace "/" "_" (replace "+" "-" (b64encode s)).

(** The bytes the decoder emits at positions 1, 2 and 3 of a quad, from the
    bits left over ([leftchar]) and the current 6-bit value:
    [(leftchar << 2) | (this_ch >> 4)], [(leftchar << 4) | (this_ch >> 2)],
    [(leftchar << 6) | this_ch], each cut to 8 bits. *)
Definition dec1 (leftchar this_ch : ascii) : ascii :=
  let 'Ascii l0 l1 l2 l3 l4 l5 _ _ := leftchar in
  let 'Ascii _ _ _ _ t4 t5 _ _ := this_ch in
  Ascii t4 t5 l0 l1 l2 l3 l4 l5.
Definition dec2 (leftchar this_ch : ascii) : ascii :=
  let 'Ascii l0 l1 l2 l3 _ _ _ _ := leftchar in
  let 'Ascii _ _ t2 t3 t4 t5 _ _ := this_ch in
  Ascii t2 t3 t4 t5 l0 l1 l2 l3.
Definition dec3 (leftchar this_ch : ascii) : ascii :=
  let 'Ascii l0 l1 _ _ _ _ _ _ := leftchar in
  let 'Ascii t0 t1 t2 t3 t4 t5 _ _ := this_ch in
  Ascii t0 t1 t2 t3 t4 t5 l0 l1.

Definition cons_byte (x : ascii) (r : res (list ascii)) : res (list ascii) :=
  do l <- r; Ok (x :: l).

(** The loop of [a2b_base64] from the state [(quad_pos, leftchar, pads)];
    the result is the bytes written from here on. *)
Fixpoint a2b_loop (ascii_data : str) (quad_pos : nat) (leftchar : ascii)
    (pads : nat) : res (list ascii) :=
  match ascii_data with
  | [] =>
      if (quad_pos =? 0)%nat then Ok []
      else Raise BinasciiError       (* invalid length or incorrect padding *)
  | this_ch :: rest =>
      if Ascii.eqb this_ch BASE64_PAD then
        if (2 <=? quad_pos)%nat then
          if (4 <=? quad_pos + S pads)%nat then Ok []          (* goto done *)
          else a2b_loop rest quad_pos leftchar (S pads)
        else a2b_loop rest quad_pos leftchar pads
      else
        match a2b this_ch with
        | None => a2b_loop rest quad_pos leftchar pads          (* skipped *)
        | Some v =>
            match quad_pos with
            | 0 => a2b_loop rest 1 v 0
            | 1 => cons_byte (dec1 leftchar v) (a2b_loop rest 2 v 0)
            | 2 => cons_byte (dec2 leftchar v) (a2b_loop rest 3 v 0)
            | _ => cons_byte (dec3 leftchar v) (a2b_loop rest 0 zero 0)
            end
        end
  end.

Definition b64decode (s : str) : res (list ascii) := a2b_loop s 0 zero 0.

(** A [str] argument must be ASCII ([ValueError] otherwise); ['-'] and
    ['_'] are translated to ['+'] and ['/']. *)
Definition urlsafe_b64decode (s : str) : res (list ascii) :=
  if forallb Utf8.is_ascii s then
    b64decode (replace "_" "/" (replace "-" "+" s))
  else Raise ValueError.

End Base64.

(** ** The Base64URL codec ([encoder.py], [decoder_json.py], [crypto_verifier.py]) *)

(** [s.encode('utf-8')]: a string with a lone surrogate has no encoding. *)
Definition str_encode (s : str) : res (list ascii) :=
  if Utf8.utf8_valid s then Ok s else Raise UnicodeEncodeError.

Definition encode_base64url (data : str) : res str :=
  do encoded_bytes <- str_encode data;
  let base64_bytes := Base64.urlsafe_b64encode encoded_bytes in
  let base64_string := base64_bytes in
  Ok (rstrip "=" base64_string).

(** [binascii.Error] and [UnicodeDecodeError] are caught and raised again as
    [ValueError]; the [ValueError] of a non-ASCII argument is not caught. *)
Definition decode_base64url (encoded_string : str) : res str :=
  let base64_string := replace "_" "/" (replace "-" "+" encoded_string) in
  let padding_length := 4 - (Utf8.py_len base64_string mod 4) in
  let base64_string :=
    if (padding_length =? 4)%nat then base64_string
    else base64_string ++ str_repeat "=" padding_length in
  match Base64.urlsafe_b64decode base64_string with
  | Ok decoded_bytes =>
      if Utf8.utf8_valid decoded_bytes then Ok decoded_bytes
      else Raise ValueError
  | Raise _ => Raise ValueError
  end.

(** ** Python values

    The values [json.loads] and the manual parser build, and the maps the
    callers pass to the encoder. A [dict] is the list of its entries in
    insertion order, with no key twice. The type of floating-point numbers
    is a parameter. *)

Section Values.
Context {pyfloat : Type}.

Unset Elimination Schemes.
Inductive value : Type :=
| VNone
| VBool (b : bool)
| VInt (z : Z)
| VFloat (f : pyfloat)
| VStr (s : str)
| VList (l : list value)
| VDict (d : list (str * value)).
Set Elimination Schemes.

Definition dict := list (str * value).

(** [d[k]], [None] when the key is absent. *)
Fixpoint dict_get (d : dict) (k : str) : option value :=
  match d with
  | [] => None
  | (k', v) :: rest => if str_eqb k k' then Some v else dict_get rest k
  end.

(** [k in d] *)
Definition dict_has (d : dict) (k : str) : bool :=
  match dict_get d k with Some _ => true | None => false end.

(** [d[k] = v]: an existing key keeps its place, a new one goes last. *)
Fixpoint dict_set (d : dict) (k : str) (v : value) : dict :=
  match d with
  | [] => [(k, v)]
  | (k', v') :: rest =>
      if str_eqb k k' then (k', v) :: rest else (k', v') :: dict_set rest k v
  end.

(** [isinstance(v, int)]: [bool] is a subclass of [int]. *)
Definition isinstance_int (v : value) : bool :=
  match v with VInt _ | VBool _ => true | _ => false end.

Definition isinstance_str (v : value) : bool :=
  match v with VStr _ => true | _ => false end.

Definition isinstance_list (v : value) : bool :=
  match v with VList _ => true | _ => false end.

Definition isinstance_dict (v : value) : bool :=
  match v with VDict _ => true | _ => false end.

(** The integer an [int] or a [bool] compares as. *)
Definition int_value (v : value) : Z :=
  match v with
  | VInt z => z
  | VBool true => 1
  | _ => 0
  end.

(** [v == s] for a string [s]. *)
Definition eq_str (v : value) (s : str) : bool :=
  match v with VStr s' => str_eqb s' s | _ => false end.

(** [all(isinstance(x, str) for x in l)] *)
Definition all_str (l : list value) : bool := forallb isinstance_str l.

Fixpoint is_prefix (p s : str) : bool :=
  match p, s with
  | [], _ => true
  | _ :: _, [] => false
  | a :: p', c :: s' => Ascii.eqb a c && is_prefix p' s'
  end.

(** [sub in s] for two strings. *)
Fixpoint is_substring (sub s : str) : bool :=
  is_prefix sub s ||
  match s with
  | [] => false
  | _ :: s' => is_substring sub s'
  end.

(** [k in v] for a string [k]: a key of a dict, an element of a list, a
    substring of a string; [TypeError] on a value that is no container. *)
Definition py_in (k : str) (v : value) : res bool :=
  match v with
  | VDict d => Ok (dict_has d k)
  | VList l => Ok (existsb (fun x => eq_str x k) l)
  | VStr s => Ok (is_substring k s)
  | _ => Raise TypeError
  end.

(** [v[k]] for a string [k]: only a dict can be indexed by a string. *)
Definition getitem (v : value) (k : str) : res value :=
  match v with
  | VDict d =>
      match dict_get d k with
      | Some x => Ok x
      | None => Raise KeyError
      end
  | _ => Raise TypeError
  end.

End Values.

Arguments value : clear implicits.
Arguments dict : clear implicits.

(** ** Phase 2: the manual JSON parser ([syntactic_analyzer.JSONParser])

    The cursor [self.i] is kept as the text from position [i] on. Each
    method returns its result and the text left.

    [str.isdigit], [int] and the four characters of a [\u] escape are taken
    on ASCII text: the digits are ['0'] to ['9'] and a character is its
    byte. Python also takes a decimal digit that is not ASCII for a digit,
    so a text with such a digit outside its strings, or in a [\u] escape,
    is a number or a character for the code and an error here. The
    embedding refuses such a text and never accepts one the code refuses;
    the properties below are about the values a text parses to, or about
    ASCII texts. *)

Section ManualParser.
Context {pyfloat : Type}.

(** [float(s)]; [None] when it raises [ValueError]. *)
Variable float_of_str : str -> option pyfloat.

(** The characters [" \n\t\r"] of [skip_ws]. *)
Definition ws_chars : str := [" "; "010"; "009"; "013"]%char.

Definition is_ws (c : ascii) : bool := char_in c ws_chars.

Definition isdigit (c : ascii) : bool := Utf8.in_range 48 57 c.

Fixpoint skip_ws (t : str) : str :=
  match t with
  | c :: r => if is_ws c then skip_ws r else t
  | [] => []
  end.

Definition digit_value (c : ascii) : Z := (Z.of_nat (nat_of_ascii c) - 48)%Z.

(** The digits of a hexadecimal or decimal numeral, [None] for another
    character. *)
Definition hex_value (c : ascii) : option Z :=
  if isdigit c then Some (digit_value c)
  else if Utf8.in_range 97 102 c then Some (Z.of_nat (nat_of_ascii c) - 87)%Z
  else if Utf8.in_range 65 70 c then Some (Z.of_nat (nat_of_ascii c) - 55)%Z
  else None.

(** The whitespace [int] strips from both ends of an ASCII string. *)
Definition int_space (c : ascii) : bool :=
  Utf8.in_range 9 13 c || Utf8.in_range 28 32 c.

Fixpoint lstrip_space (s : str) : str :=
  match s with
  | c :: r => if int_space c then lstrip_space r else s
  | [] => []
  end.

Definition strip_space (s : str) : str :=
  rev (lstrip_space (rev (lstrip_space s))).

(** Digits in [base] with single underscores between them; [acc] is the
    value read so far and [prev] tells that the last character was a digit. *)
Fixpoint digits_value (base : Z) (s : str) (acc : Z) (prev : bool) : option Z :=
  match s with
  | [] => if prev then Some acc else None
  | c :: r =>
      if Ascii.eqb c "_" then
        if prev then
          match r with
          | [] => None
          | _ => digits_value base r acc false
          end
        else None
      else
        match hex_value c with
        | Some v =>
            if (v <? base)%Z then digits_value base r (acc * base + v)%Z true
            else None
        | None => None
        end
  end.

(** [int(s, base)] for [base] 10 or 16: surrounding whitespace, a sign, for
    base 16 the prefix [0x], and the digits. *)
Definition py_int (base : Z) (s : str) : option Z :=
  let s := strip_space s in
  let '(neg, s) :=
    match after "-" s, after "+" s with
    | Some r, _ => (true, r)
    | None, Some r => (false, r)
    | None, None => (false, s)
    end in
  let body :=
    match after "0" s with
    | Some (x :: r) =>
        if (base =? 16)%Z && (Ascii.eqb x "x" || Ascii.eqb x "X") then
          match after "_" r with
          | Some r' => r'
          | None => r
          end
        else s
    | _ => s
    end in
  match after "_" body, body with
  | Some _, _ => None
  | None, [] => None
  | None, _ =>
      match digits_value base body 0 true with
      | Some v => Some (if neg then - v else v)%Z
      | None => None
      end
  end.

(** The loop of [parse_string], after the opening quote. The four
    characters after [\u] are read as bytes. *)
Fixpoint parse_string_loop (t : str) (out : str) : res (str * str) :=
  match t with
  | [] => Raise JSONParseError                         (* String no cerrado. *)
  | c :: r =>
      if Ascii.eqb c quote then Ok (out, r)
      else if Ascii.eqb c backslash then
        match r with
        | [] => Raise JSONParseError                   (* Escape incompleto. *)
        | nxt :: r' =>
            if Ascii.eqb nxt quote || Ascii.eqb nxt backslash
               || Ascii.eqb nxt "/"
            then parse_string_loop r' (out ++ [nxt])
            else if Ascii.eqb nxt "n" then
              parse_string_loop r' (out ++ ["010"%char])
            else if Ascii.eqb nxt "t" then
              parse_string_loop r' (out ++ ["009"%char])
            else if Ascii.eqb nxt "r" then
              parse_string_loop r' (out ++ ["013"%char])
            else if Ascii.eqb nxt "u" then
              match r' with
              | h1 :: h2 :: h3 :: h4 :: r'' =>
                  match py_int 16 [h1; h2; h3; h4] with
                  | Some n =>
                      if (n <? 0)%Z then Raise ValueError        (* chr *)
                      else parse_string_loop r'' (out ++ Utf8.chr n)
                  | None => Raise ValueError                      (* int *)
                  end
              | _ => Raise JSONParseError              (* Unicode incompleto. *)
              end
            else Raise JSONParseError                  (* Escape inválido. *)
        end
      else parse_string_loop r (out ++ [c])
  end.

Definition parse_string (t : str) : res (str * str) :=
  match skip_ws t with                                           (* peek *)
  | c :: r =>
      if Ascii.eqb c quote then parse_string_loop r []
      else Raise JSONParseError            (* Se esperaba inicio de string. *)
  | [] => Raise JSONParseError
  end.

(** [while self.peek() and self.peek().isdigit(): self.i += 1]: [peek]
    skips whitespace before it looks, so digits and whitespace are consumed
    alike. The result is the text consumed and the text left. *)
Fixpoint digits_loop (t : str) : str * str :=
  match t with
  | c :: r =>
      if is_ws c || isdigit c then
        let '(num, rest) := digits_loop r in (c :: num, rest)
      else ([], t)
  | [] => ([], [])
  end.

(** [peek] is there and is a digit. *)
Definition peek_isdigit (t : str) : bool :=
  match skip_ws t with
  | c :: _ => isdigit c
  | [] => false
  end.

Definition has_dot (s : str) : bool := char_in "." s.

Definition parse_number (t : str) : res (value pyfloat * str) :=
  let start := skip_ws t in
  let '(sign, t1) :=
    match after "-" start with
    | Some r => (["-"%char], r)
    | None => ([], start)
    end in
  if negb (peek_isdigit t1) then Raise JSONParseError    (* Número inválido. *)
  else
    let '(int_part, t2) := digits_loop t1 in
    let frac :=
      match after "." t2 with
      | Some r =>
          if negb (peek_isdigit r) then Raise JSONParseError (* Decimal inválido. *)
          else let '(frac_part, t3) := digits_loop r in
               Ok ("."%char :: frac_part, t3)
      | None => Ok ([], t2)
      end in
    do ' (frac_part, t3) <- frac;
    let num_str := sign ++ int_part ++ frac_part in
    if has_dot num_str then
      match float_of_str num_str with
      | Some f => Ok (VFloat f, t3)
      | None => Raise JSONParseError                  (* Número mal formado. *)
      end
    else
      match py_int 10 num_str with
      | Some z => Ok (VInt z, t3)
      | None => Raise JSONParseError                  (* Número mal formado. *)
      end.

Definition startswith (prefix t : str) : bool := is_prefix prefix t.

(** [parse_value], and the [while True] loops of [parse_object] and
    [parse_array] after their first test for an empty container. [fuel]
    bounds the depth of the calls; [parse] gives enough of it for any text. *)
Fixpoint parse_value (fuel : nat) (t : str) : res (value pyfloat * str) :=
  match fuel with
  | 0 => Raise RecursionError
  | S fuel =>
      let t := skip_ws t in
      match t with
      | [] => Raise JSONParseError                          (* EOF inesperado. *)
      | c :: r =>
          if Ascii.eqb c quote then
            do ' (s, t') <- parse_string t; Ok (VStr s, t')
          else if Ascii.eqb c "{" then
            match after "}" (skip_ws r) with
            | Some r' => Ok (VDict [], r')
            | None => parse_object_loop fuel [] r
            end
          else if Ascii.eqb c "[" then
            match after "]" (skip_ws r) with
            | Some r' => Ok (VList [], r')
            | None => parse_array_loop fuel [] r
            end
          else if isdigit c || Ascii.eqb c "-" then parse_number t
          else if startswith "true" t then Ok (VBool true, skipn 4 t)
          else if startswith "false" t then Ok (VBool false, skipn 5 t)
          else if startswith "null" t then Ok (VNone, skipn 4 t)
          else Raise JSONParseError             (* Token inesperado en value *)
      end
  end
with parse_object_loop (fuel : nat) (obj : dict pyfloat) (t : str)
    : res (value pyfloat * str) :=
  match fuel with
  | 0 => Raise RecursionError
  | S fuel =>
      do ' (key, t1) <- parse_string t;
      match after ":" (skip_ws t1) with
      | Some t2 =>
          do ' (val, t3) <- parse_value fuel t2;
          let obj := dict_set obj key val in
          match after "}" (skip_ws t3), after "," (skip_ws t3) with
          | Some t4, _ => Ok (VDict obj, t4)
          | None, Some t4 => parse_object_loop fuel obj t4
          | None, None => Raise JSONParseError    (* Se esperaba ',' o '}'. *)
          end
      | None => Raise JSONParseError                     (* Se esperaba ':'. *)
      end
  end
with parse_array_loop (fuel : nat) (arr : list (value pyfloat)) (t : str)
    : res (value pyfloat * str) :=
  match fuel with
  | 0 => Raise RecursionError
  | S fuel =>
      do ' (val, t1) <- parse_value fuel t;
      let arr := arr ++ [val] in
      match after "]" (skip_ws t1), after "," (skip_ws t1) with
      | Some t2, _ => Ok (VList arr, t2)
      | None, Some t2 => parse_array_loop fuel arr t2
      | None, None => Raise JSONParseError        (* Se esperaba ',' o ']'. *)
      end
  end.

(** [JSONParser(text).parse()] *)
Definition parse_json_manual (text : str) : res (value pyfloat) :=
  do ' (value, t) <- parse_value (S (length text)) text;
  match skip_ws t with
  | [] => Ok value
  | _ => Raise JSONParseError                (* Texto extra después del JSON. *)
  end.

End ManualParser.

(** ** The [json] module of the Python library

    [json_loads] is [json.loads] with its default decoder (strict strings,
    the constants [NaN], [Infinity] and [-Infinity] accepted), and
    [json_dumps] is [json.dumps] with [separators=(',', ':')] and its other
    defaults ([ensure_ascii], insertion order of the keys). The limits on
    the depth of nesting and on the number of digits of an integer are not
    modelled. *)

Section JsonLibrary.
Context {pyfloat : Type}.

(** [float(s)], [None] when it raises, and the text [json.dumps] writes for
    a float: its [repr], or [NaN], [Infinity], [-Infinity]. *)
Variable float_of_str : str -> option pyfloat.
Variable float_repr : pyfloat -> str.

(** *** Serialization *)

Definition hex_digit (v : Z) : ascii :=
  nth (Z.to_nat v) ("0123456789abcdef" : str) "0"%char.

(** ['\\u{0:04x}'.format(n)] *)
Definition u_escape (n : Z) : str :=
  [backslash; "u"%char; hex_digit (n / 4096); hex_digit ((n / 256) mod 16);
   hex_digit ((n / 16) mod 16); hex_digit (n mod 16)]%Z.

(** What [encode_basestring_ascii] writes for the character of code point
    [n]: itself when it is printable ASCII other than the quote and the
    backslash, else its escape, a surrogate pair above [0xFFFF]. *)
Definition escape_char (n : Z) : str :=
  (if n =? 34 then [backslash; quote]
   else if n =? 92 then [backslash; backslash]
   else if n =? 8 then [backslash; "b"%char]
   else if n =? 12 then [backslash; "f"%char]
   else if n =? 10 then [backslash; "n"%char]
   else if n =? 13 then [backslash; "r"%char]
   else if n =? 9 then [backslash; "t"%char]
   else if (32 <=? n) && (n <=? 126) then [Utf8.byte_of n]
   else if n <? 65536 then u_escape n
   else u_escape (55296 + (n - 65536) / 1024)
        ++ u_escape (56320 + (n - 65536) mod 1024))%Z.

(** The code points of two, three and four bytes. *)
Definition cp2 (b0 b1 : ascii) : Z :=
  ((Utf8.byte_val b0 - 192) * 64 + (Utf8.byte_val b1 - 128))%Z.
Definition cp3 (b0 b1 b2 : ascii) : Z :=
  ((Utf8.byte_val b0 - 224) * 4096 + (Utf8.byte_val b1 - 128) * 64
   + (Utf8.byte_val b2 - 128))%Z.
Definition cp4 (b0 b1 b2 b3 : ascii) : Z :=
  ((Utf8.byte_val b0 - 240) * 262144 + (Utf8.byte_val b1 - 128) * 4096
   + (Utf8.byte_val b2 - 128) * 64 + (Utf8.byte_val b3 - 128))%Z.

(** The escaped characters of a string, one character of [s] at a time. A
    byte that starts no character, which no [str] holds, is escaped as the
    character of its own value. *)
Fixpoint escape_ascii (s : str) : str :=
  match s with
  | [] => []
  | b0 :: r0 =>
      let alone := escape_char (Utf8.byte_val b0) ++ escape_ascii r0 in
      if Utf8.is_ascii b0 then alone
      else match r0 with
      | [] => alone
      | b1 :: r1 =>
          if Utf8.in_range 192 223 b0 then
            if Utf8.cont b1 then escape_char (cp2 b0 b1) ++ escape_ascii r1
            else alone
          else match r1 with
          | [] => alone
          | b2 :: r2 =>
              if Utf8.in_range 224 239 b0 then
                if Utf8.cont b1 && Utf8.cont b2
                then escape_char (cp3 b0 b1 b2) ++ escape_ascii r2
                else alone
              else match r2 with
              | [] => alone
              | b3 :: r3 =>
                  if Utf8.in_range 240 247 b0 && Utf8.cont b1 && Utf8.cont b2
                     && Utf8.cont b3
                  then escape_char (cp4 b0 b1 b2 b3) ++ escape_ascii r3
                  else alone
              end
          end
      end
  end.

Definition encode_basestring_ascii (s : str) : str :=
  quote :: escape_ascii s ++ [quote].

(** [str(z)] *)
Definition str_of_int (z : Z) : str :=
  list_ascii_of_string (DecimalString.NilZero.string_of_int (Z.to_int z)).

Fixpoint json_dumps (v : value pyfloat) : str :=
  match v with
  | VNone => "null"
  | VBool true => "true"
  | VBool false => "false"
  | VInt z => str_of_int z
  | VFloat f => float_repr f
  | VStr s => encode_basestring_ascii s
  | VList l => "[" ++ join "," (map json_dumps l) ++ "]"
  | VDict d =>
      "{" ++ join ","
               (map (fun kv : str * value pyfloat =>
                       let '(k, x) := kv in
                       encode_basestring_ascii k ++ ":" ++ json_dumps x) d)
          ++ "}"
  end.

(** *** Parsing *)

Definition WHITESPACE (c : ascii) : bool :=
  char_in c ([" "; "009"; "010"; "013"]%char).

Fixpoint skip_whitespace (t : str) : str :=
  match t with
  | c :: r => if WHITESPACE c then skip_whitespace r else t
  | [] => []
  end.

Definition digit (c : ascii) : bool := Utf8.in_range 48 57 c.

Definition hex_digit_value (c : ascii) : option Z :=
  (if digit c then Some (Utf8.byte_val c - 48)
   else if Utf8.in_range 97 102 c then Some (Utf8.byte_val c - 87)
   else if Utf8.in_range 65 70 c then Some (Utf8.byte_val c - 55)
   else None)%Z.

(** The four hexadecimal digits of a [\uXXXX] escape. *)
Definition hex4_value (h1 h2 h3 h4 : ascii) : option Z :=
  match hex_digit_value h1, hex_digit_value h2,
        hex_digit_value h3, hex_digit_value h4 with
  | Some a, Some b0, Some c, Some d0 =>
      Some (((a * 16 + b0) * 16 + c) * 16 + d0)%Z
  | _, _, _, _ => None
  end.

Definition is_high_surrogate (c : Z) : bool := ((55296 <=? c) && (c <=? 56319))%Z.
Definition is_low_surrogate (c : Z) : bool := ((56320 <=? c) && (c <=? 57343))%Z.
Definition join_surrogates (hi lo : Z) : Z :=
  (65536 + (hi - 55296) * 1024 + (lo - 56320))%Z.

(** The escapes of one character. *)
Definition simple_escape (c : ascii) : option ascii :=
  if Ascii.eqb c quote then Some quote
  else if Ascii.eqb c backslash then Some backslash
  else if Ascii.eqb c "/" then Some "/"%char
  else if Ascii.eqb c "b" then Some "008"%char
  else if Ascii.eqb c "f" then Some "012"%char
  else if Ascii.eqb c "n" then Some "010"%char
  else if Ascii.eqb c "r" then Some "013"%char
  else if Ascii.eqb c "t" then Some "009"%char
  else None.

Definition prepend (chunk : str) (r : res (str * str)) : res (str * str) :=
  do ' (s, rest) <- r; Ok (chunk ++ s, rest).

(** [scanstring], after the opening quote: the string and the text after
    its closing quote. *)
Fixpoint scanstring (t : str) : res (str * str) :=
  match t with
  | [] => Raise JSONDecodeError                     (* Unterminated string *)
  | c :: r =>
      if Ascii.eqb c quote then Ok ([], r)
      else if Ascii.eqb c backslash then
        match r with
        | [] => Raise JSONDecodeError               (* Unterminated string *)
        | e :: r1 =>
            if Ascii.eqb e "u" then
              match r1 with
              | h1 :: h2 :: h3 :: h4 :: r2 =>
                  match hex4_value h1 h2 h3 h4 with
                  | None => Raise JSONDecodeError   (* Invalid \uXXXX escape *)
                  | Some c1 =>
                      let single := prepend (Utf8.chr c1) (scanstring r2) in
                      if is_high_surrogate c1 then
                        match r2 with
                        | b1 :: u1 :: g1 :: g2 :: g3 :: g4 :: r3 =>
                            if Ascii.eqb b1 backslash && Ascii.eqb u1 "u" then
                              match hex4_value g1 g2 g3 g4 with
                              | None => Raise JSONDecodeError
                              | Some c2 =>
                                  if is_low_surrogate c2 then
                                    prepend (Utf8.chr (join_surrogates c1 c2))
                                            (scanstring r3)
                                  else single
                              end
                            else single
                        | _ => single
                        end
                      else single
                  end
              | _ => Raise JSONDecodeError          (* Invalid \uXXXX escape *)
              end
            else
              match simple_escape e with
              | Some ch => prepend [ch] (scanstring r1)
              | None => Raise JSONDecodeError       (* Invalid \escape *)
              end
        end
      else if (Utf8.byte_val c <=? 31)%Z then
        Raise JSONDecodeError                       (* Invalid control character *)
      else prepend [c] (scanstring r)
  end.

Fixpoint span_digits (t : str) : str * str :=
  match t with
  | c :: r =>
      if digit c then let '(ds, rest) := span_digits r in (c :: ds, rest)
      else ([], t)
  | [] => ([], [])
  end.

(** [_match_number]: the text of the number, whether it is a float, and the
    text left; [None] when no number starts here. *)
Definition match_number (t : str) : option (str * bool * str) :=
  let '(sign, t1) :=
    match after "-" t with
    | Some r => (["-"%char], r)
    | None => ([], t)
    end in
  let int_part :=
    match t1 with
    | c :: r =>
        if Utf8.in_range 49 57 c then
          let '(ds, rest) := span_digits r in Some (c :: ds, rest)
        else if Ascii.eqb c "0" then Some ([c], r)
        else None
    | [] => None
    end in
  match int_part with
  | None => None
  | Some (ip, t2) =>
      let '(frac, t3) :=
        match after "." t2 with
        | Some (d0 :: r) =>
            if digit d0 then
              let '(ds, rest) := span_digits r in ("."%char :: d0 :: ds, rest)
            else ([], t2)
        | _ => ([], t2)
        end in
      let '(exp, t4) :=
        match t3 with
        | e :: r =>
            if Ascii.eqb e "e" || Ascii.eqb e "E" then
              let '(sgn, r') :=
                match r with
                | s :: r' =>
                    if Ascii.eqb s "-" || Ascii.eqb s "+" then ([s], r')
                    else ([], r)
                | [] => ([], r)
                end in
              let '(ds, rest) := span_digits r' in
              match ds with
              | [] => ([], t3)                                 (* backtrack *)
              | _ => (e :: sgn ++ ds, rest)
              end
            else ([], t3)
        | [] => ([], t3)
        end in
      let is_float := match frac, exp with [], [] => false | _, _ => true end in
      Some (sign ++ ip ++ frac ++ exp, is_float, t4)
  end.

(** [int(numstr)] for the text of an integer. *)
Definition int_of_str (numstr : str) : option Z :=
  option_map Z.of_int
    (DecimalString.NilZero.int_of_string (string_of_list_ascii numstr)).

Definition parse_constant (name : str) (rest : str)
    : res (value pyfloat * str) :=
  match float_of_str name with
  | Some f => Ok (VFloat f, rest)
  | None => Raise ValueError
  end.

(** [scan_once], and the loops of [_parse_object] and [_parse_array] from
    the position of a key and of an element. *)
Fixpoint scan_once (fuel : nat) (t : str) : res (value pyfloat * str) :=
  match fuel with
  | 0 => Raise RecursionError
  | S fuel =>
      match t with
      | [] => Raise JSONDecodeError                        (* Expecting value *)
      | c :: r =>
          if Ascii.eqb c quote then
            do ' (s, t') <- scanstring r; Ok (VStr s, t')
          else if Ascii.eqb c "{" then
            match after "}" (skip_whitespace r) with
            | Some r' => Ok (VDict [], r')
            | None => object_loop fuel [] (skip_whitespace r)
            end
          else if Ascii.eqb c "[" then
            match after "]" (skip_whitespace r) with
            | Some r' => Ok (VList [], r')
            | None => array_loop fuel [] (skip_whitespace r)
            end
          else if is_prefix "null" t then Ok (VNone, skipn 4 t)
          else if is_prefix "true" t then Ok (VBool true, skipn 4 t)
          else if is_prefix "false" t then Ok (VBool false, skipn 5 t)
          else if is_prefix "NaN" t then parse_constant "nan" (skipn 3 t)
          else if is_prefix "Infinity" t then parse_constant "inf" (skipn 8 t)
          else if is_prefix "-Infinity" t then parse_constant "-inf" (skipn 9 t)
          else
            match match_number t with
            | None => Raise JSONDecodeError                (* Expecting value *)
            | Some (numstr, true, rest) =>
                match float_of_str numstr with
                | Some f => Ok (VFloat f, rest)
                | None => Raise ValueError
                end
            | Some (numstr, false, rest) =>
                match int_of_str numstr with
                | Some z => Ok (VInt z, rest)
                | None => Raise ValueError
                end
            end
      end
  end
with object_loop (fuel : nat) (rval : dict pyfloat) (t : str)
    : res (value pyfloat * str) :=
  match fuel with
  | 0 => Raise RecursionError
  | S fuel =>
      match after quote t with
      | Some r =>
          do ' (key, t1) <- scanstring r;
          match after ":" (skip_whitespace t1) with
          | Some t2 =>
              do ' (val, t3) <- scan_once fuel (skip_whitespace t2);
              let rval := dict_set rval key val in
              match after "}" (skip_whitespace t3),
                    after "," (skip_whitespace t3) with
              | Some t4, _ => Ok (VDict rval, t4)
              | None, Some t4 => object_loop fuel rval (skip_whitespace t4)
              | None, None => Raise JSONDecodeError (* Expecting ',' delimiter *)
              end
          | None => Raise JSONDecodeError          (* Expecting ':' delimiter *)
          end
      | None => Raise JSONDecodeError              (* Expecting property name *)
      end
  end
with array_loop (fuel : nat) (rval : list (value pyfloat)) (t : str)
    : res (value pyfloat * str) :=
  match fuel with
  | 0 => Raise RecursionError
  | S fuel =>
      do ' (val, t1) <- scan_once fuel t;
      let rval := rval ++ [val] in
      match after "]" (skip_whitespace t1), after "," (skip_whitespace t1) with
      | Some t2, _ => Ok (VList rval, t2)
      | None, Some t2 => array_loop fuel rval (skip_whitespace t2)
      | None, None => Raise JSONDecodeError        (* Expecting ',' delimiter *)
      end
  end.

(** The bytes of the byte order mark [U+FEFF]. *)
Definition BOM : str := ["239"; "187"; "191"]%char.

Definition json_loads (s : str) : res (value pyfloat) :=
  if is_prefix BOM s then Raise JSONDecodeError       (* Unexpected UTF-8 BOM *)
  else
    do ' (obj, t) <- scan_once (S (length s)) (skip_whitespace s);
    match skip_whitespace t with
    | [] => Ok obj
    | _ => Raise JSONDecodeError                                (* Extra data *)
    end.

End JsonLibrary.

(** *** Well-formed values *)

Section WellFormed.
Context {pyfloat : Type}.
Variable float_of_str : str -> option pyfloat.
Variable float_repr : pyfloat -> str.

(** What may follow a value in a text that [json.dumps] writes: nothing,
    or one of [,], []] and [}]. *)
Definition delimited (rest : str) : Prop :=
  match rest with
  | [] => True
  | c :: _ => c = ","%char \/ c = "]"%char \/ c = "}"%char
  end.

(** [json.loads] reads back the float [f] that [json.dumps] has written. *)
Definition float_reads_back (f : pyfloat) : Prop :=
  forall fuel rest, delimited rest ->
    scan_once float_of_str (S fuel) (float_repr f ++ rest) = Ok (VFloat f, rest).

(** The values that are well formed: a string is text, the keys of an
    object are distinct, and a float is read back. *)
Fixpoint wf_value (v : value pyfloat) : Prop :=
  match v with
  | VFloat f => float_reads_back f
  | VStr s => Utf8.utf8_valid s = true
  | VList l =>
      (fix all (l : list (value pyfloat)) : Prop :=
         match l with
         | [] => True
         | x :: r => wf_value x /\ all r
         end) l
  | VDict d =>
      NoDup (map fst d) /\
      (fix all (d : list (str * value pyfloat)) : Prop :=
         match d with
         | [] => True
         | (k, x) :: r => Utf8.utf8_valid k = true /\ wf_value x /\ all r
         end) d
  | _ => True
  end.

End WellFormed.

(** ** Phase 2: the structural checks ([syntactic_analyzer.analyze_syntax]) *)

Module Syntactic.
Section Syntactic.
Context {pyfloat : Type}.
Variable float_of_str : str -> option pyfloat.

(** The entries of the list [errors], by the message they stand for. *)
Inductive syntax_error : Type :=
| HeaderInvalid                  (* "Header inválido: " + str(e) *)
| PayloadInvalid                 (* "Payload inválido: " + str(e) *)
| HeaderNotObject                (* "Header debe ser objeto JSON." *)
| PayloadNotObject               (* "Payload debe ser objeto JSON." *)
| MissingAlg                     (* "Header faltante 'alg'." *)
| MissingTyp                     (* "Header faltante 'typ'." *)
| TypNotJWT                      (* "Header 'typ' debe ser exactamente 'JWT' (FATAL)." *)
| ClaimNotInt (t : str)          (* f"Claim '{t}' debe ser entero." *)
| AudNotListOfStr                (* "Claim 'aud' debe ser lista de strings." *)
| AudNotStrOrList                (* "Claim 'aud' debe ser string o lista." *)
| PermissionsNotListOfStr.       (* "Claim 'permissions' debe ser lista de strings." *)

(** The dictionary [result]. *)
Record result : Type := mkResult {
  success : bool;
  valid : bool;
  header : value pyfloat;
  payload : value pyfloat;
  errors : list syntax_error
}.

(** [try: x = parse_json_manual(text)] [except: x = json.loads(text)] *)
Definition parse_text (text : str) : res (value pyfloat) :=
  match parse_json_manual float_of_str text with
  | Ok v => Ok v
  | Raise _ => json_loads float_of_str text
  end.

(** [if cond: errors.append(e)] *)
Definition append_if (cond : bool) (e : syntax_error)
    (errors : list syntax_error) : list syntax_error :=
  if cond then errors ++ [e] else errors.

(** The check of one of the claims ["iat"], ["exp"], ["nbf"]. *)
Definition check_numeric_date (payload : value pyfloat) (t : str)
    (errors : list syntax_error) : res (list syntax_error) :=
  do present <- py_in t payload;
  if present then
    do x <- getitem payload t;
    Ok (append_if (negb (isinstance_int x)) (ClaimNotInt t) errors)
  else Ok errors.

Definition check_aud (payload : value pyfloat) (errors : list syntax_error)
    : res (list syntax_error) :=
  do present <- py_in "aud" payload;
  if present then
    do aud <- getitem payload "aud";
    match aud with
    | VList l => Ok (append_if (negb (all_str l)) AudNotListOfStr errors)
    | _ => Ok (append_if (negb (isinstance_str aud)) AudNotStrOrList errors)
    end
  else Ok errors.

Definition check_permissions (payload : value pyfloat)
    (errors : list syntax_error) : res (list syntax_error) :=
  do present <- py_in "permissions" payload;
  if present then
    do perms <- getitem payload "permissions";
    let ok := match perms with VList l => all_str l | _ => false end in
    Ok (append_if (negb ok) PermissionsNotListOfStr errors)
  else Ok errors.

(** The part of [analyze_syntax] under the comment [# VALIDACIONES]: the
    list [errors] at the end, or the exception that leaves the function. *)
Definition validations (header payload : value pyfloat)
    : res (list syntax_error) :=
  let errors := [] in
  let errors := append_if (negb (isinstance_dict header)) HeaderNotObject errors in
  let errors := append_if (negb (isinstance_dict payload)) PayloadNotObject errors in
  do has_alg <- py_in "alg" header;
  let errors := append_if (negb has_alg) MissingAlg errors in
  do has_typ <- py_in "typ" header;
  do errors <-
    (if negb has_typ then Ok (errors ++ [MissingTyp])
     else
       do typ <- getitem header "typ";
       Ok (append_if (negb (eq_str typ "JWT")) TypNotJWT errors));
  do errors <- check_numeric_date payload "iat" errors;
  do errors <- check_numeric_date payload "exp" errors;
  do errors <- check_numeric_date payload "nbf" errors;
  do errors <- check_aud payload errors;
  check_permissions payload errors.

Definition analyze_syntax (header_str payload_str : str) : res result :=
  match parse_text header_str with
  | Raise _ =>
      Ok {| success := true; valid := false; header := VNone;
            payload := VNone; errors := [HeaderInvalid] |}
  | Ok header_v =>
      match parse_text payload_str with
      | Raise _ =>
          Ok {| success := true; valid := false; header := VNone;
                payload := VNone; errors := [PayloadInvalid] |}
      | Ok payload_v =>
          do errors <- validations header_v payload_v;
          Ok {| success := true;
                valid := match errors with [] => true | _ => false end;
                header := header_v; payload := payload_v;
                errors := errors |}
      end
  end.

End Syntactic.
End Syntactic.

(** ** Phase 3: the semantic rule engine ([semantic_analyzer.SemanticAnalyzer]) *)

Module Semantic.
Section Semantic.
Context {pyfloat : Type}.

Definition supported_algorithms : list str := ["HS256" : str; "HS384" : str].

(** [x not in self.supported_algorithms] for a string [x]. *)
Definition supported (v : value pyfloat) : bool :=
  existsb (eq_str v) supported_algorithms.

(** [m[k]] *)
Definition subscript (m : dict pyfloat) (k : str) : res (value pyfloat) :=
  getitem (VDict m) k.

(** [raise e] when [cond] holds. *)
Definition raise_if (cond : bool) (e : exn) : res unit :=
  if cond then Raise e else Ok tt.

Definition validate_header (h_map : dict pyfloat) : res unit :=
  do _ <- raise_if (negb (dict_has h_map "alg")) (MissingClaimError "alg");
  do _ <- raise_if (negb (dict_has h_map "typ")) (MissingClaimError "typ");
  do alg <- subscript h_map "alg";
  do _ <- raise_if (negb (isinstance_str alg)) (InvalidDataTypeError "alg");
  do typ <- subscript h_map "typ";
  do _ <- raise_if (negb (isinstance_str typ)) (InvalidDataTypeError "typ");
  do alg <- subscript h_map "alg";
  do _ <- raise_if (negb (supported alg)) (InvalidValueError "alg");
  do typ <- subscript h_map "typ";
  raise_if (negb (eq_str typ "JWT")) (InvalidValueError "typ").

(** [if k in p_map and not ok(p_map[k]): raise InvalidDataTypeError] *)
Definition check_type (p_map : dict pyfloat) (k : str)
    (ok : value pyfloat -> bool) : res unit :=
  if dict_has p_map k then
    do x <- subscript p_map k;
    raise_if (negb (ok x)) (InvalidDataTypeError k)
  else Ok tt.

Definition validate_payload (p_map : dict pyfloat) (t_actual : Z) : res unit :=
  do _ <-
    (if dict_has p_map "exp" then
       do exp <- subscript p_map "exp";
       do _ <- raise_if (negb (isinstance_int exp)) (InvalidDataTypeError "exp");
       do exp <- subscript p_map "exp";
       raise_if (int_value exp <=? t_actual)%Z ExpirationDateError
     else Ok tt);
  do _ <-
    (if dict_has p_map "nbf" then
       do nbf <- subscript p_map "nbf";
       do _ <- raise_if (negb (isinstance_int nbf)) (InvalidDataTypeError "nbf");
       do nbf <- subscript p_map "nbf";
       raise_if (t_actual <? int_value nbf)%Z NotActiveTokenError
     else Ok tt);
  do _ <- check_type p_map "iat" isinstance_int;
  do _ <- check_type p_map "iss" isinstance_str;
  do _ <- check_type p_map "sub" isinstance_str;
  if dict_has p_map "aud" then
    do aud <- subscript p_map "aud";
    let es_string := isinstance_str aud in
    let es_list := match aud with VList l => all_str l | _ => false end in
    raise_if (negb (es_string || es_list)) (InvalidDataTypeError "aud")
  else Ok tt.

(** [analyze], with [int(time.time())] as the argument [t_actual]. *)
Definition analyze (header_map payload_map : dict pyfloat) (t_actual : Z)
    : res (dict pyfloat * dict pyfloat) :=
  do _ <- validate_header header_map;
  do _ <- validate_payload payload_map t_actual;
  Ok (header_map, payload_map).

End Semantic.
End Semantic.

(** ** Phase 5: the signer ([encoder.sign_token], [crypto_verifier.sign_token]) *)

Inductive hash_algorithm : Type := sha256 | sha384.

Module Signer.
Section Signer.
Context {pyfloat : Type}.

(** [hmac.new(key, msg, hash_algorithm).digest()] *)
Variable hmac_digest : hash_algorithm -> list ascii -> list ascii -> list ascii.

Definition sign_token (header_b64 payload_b64 : str)
    (algorithm : value pyfloat) (secret : str) : res str :=
  let message := header_b64 ++ "." ++ payload_b64 in
  do hash_algorithm <-
    (if eq_str algorithm "HS256" then Ok sha256
     else if eq_str algorithm "HS384" then Ok sha384
     else Raise UnsupportedAlgorithm);
  do key <- str_encode secret;
  do msg <- str_encode message;
  let signature_bytes := hmac_digest hash_algorithm key msg in
  let signature_b64 := Base64.urlsafe_b64encode signature_bytes in
  Ok (rstrip "=" signature_b64).

End Signer.
End Signer.

(** ** The encoder ([encoder.encode_jwt]) *)

Module Encoder.
Section Encoder.
Context {pyfloat : Type}.
Variable float_of_str : str -> option pyfloat.
Variable float_repr : pyfloat -> str.
Variable hmac_digest : hash_algorithm -> list ascii -> list ascii -> list ascii.

(** [secret] has no default here, and [t_actual] is the time the semantic
    analyzer reads. *)
Definition encode_jwt (header payload : dict pyfloat) (secret : str)
    (t_actual : Z) : res str :=
  let header_json := json_dumps float_repr (VDict header) in
  let payload_json := json_dumps float_repr (VDict payload) in
  do syntax_result <- Syntactic.analyze_syntax float_of_str header_json payload_json;
  if negb (Syntactic.valid syntax_result) then Raise SyntaxValidationError
  else
    do _ <- Semantic.analyze header payload t_actual;
    do algorithm <- Semantic.subscript header "alg";
    do header_b64 <- encode_base64url header_json;
    do payload_b64 <- encode_base64url payload_json;
    do signature_b64 <-
      Signer.sign_token hmac_digest header_b64 payload_b64 algorithm secret;
    Ok (header_b64 ++ "." ++ payload_b64 ++ "." ++ signature_b64).

End Encoder.
End Encoder.

(** ** The verifier ([crypto_verifier.verify_jwt_signature]) *)

Module Verifier.
Section Verifier.
Context {pyfloat : Type}.
Variable float_of_str : str -> option pyfloat.
Variable hmac_digest : hash_algorithm -> list ascii -> list ascii -> list ascii.

(** The value of the key ['error'], by the message it stands for. *)
Inductive verify_error : Type :=
| InvalidFormat        (* 'Formato de JWT inválido: debe tener 3 partes separadas por puntos' *)
| HeaderDecodeError    (* f'Error al decodificar el header: {e}' *)
| NoAlgClaim           (* 'El header no contiene el claim "alg"' *)
| AlgorithmNotSupported (* f'Algoritmo no soportado: {algorithm}. ...' *)
| SignError            (* str(e) of the ValueError of sign_token *)
| SignatureMismatch    (* 'La firma no coincide. ...' *)
| PayloadDecodeError   (* f'Error al decodificar el payload: {e}' *)
| Unexpected (e : exn). (* f'Error inesperado durante la verificación: {e}' *)

(** The dictionary returned; an absent key is [None]. *)
Record result : Type := mkResult {
  valid : bool;
  algorithm : option (value pyfloat);
  header : option (value pyfloat);
  payload : option (value pyfloat);
  error : option verify_error
}.

Definition invalid (e : verify_error) : result :=
  {| valid := false; algorithm := None; header := None; payload := None;
     error := Some e |}.

(** [hmac.compare_digest(a, b)] for two strings: they must be ASCII. *)
Definition compare_digest (a b : str) : res bool :=
  if forallb Utf8.is_ascii a && forallb Utf8.is_ascii b then Ok (str_eqb a b)
  else Raise TypeError.

(** [decode_base64url(segment)] then [json.loads]. *)
Definition decode_json (segment_b64 : str) : res (value pyfloat) :=
  do text <- decode_base64url segment_b64;
  json_loads float_of_str text.

(** [try: r] [except (ValueError, json.JSONDecodeError): return invalid(e)];
    another exception goes on to the outer handler. *)
Definition catch_ValueError {A} (r : res A) (e : verify_error)
    (k : A -> res result) : res result :=
  match r with
  | Ok a => k a
  | Raise x => if is_ValueError x then Ok (invalid e) else Raise x
  end.

(** The body of the outer [try]. *)
Definition verify_body (jwt_token secret : str) : res result :=
  let parts := split "." jwt_token in
  match parts with
  | [header_b64; payload_b64; signature_b64] =>
      catch_ValueError (decode_json header_b64) HeaderDecodeError (fun header_v =>
      do has_alg <- py_in "alg" header_v;
      if negb has_alg then Ok (invalid NoAlgClaim)
      else
        do algorithm_v <- getitem header_v "alg";
        if negb (existsb (eq_str algorithm_v) ["HS256" : str; "HS384" : str])
        then Ok (invalid AlgorithmNotSupported)
        else
          catch_ValueError
            (Signer.sign_token hmac_digest header_b64 payload_b64 algorithm_v secret)
            SignError (fun recalculated_signature =>
          let signature_normalized := rstrip "=" signature_b64 in
          let recalculated_normalized := rstrip "=" recalculated_signature in
          do same <- compare_digest signature_normalized recalculated_normalized;
          if negb same then
            Ok {| valid := false; algorithm := Some algorithm_v;
                  header := Some header_v; payload := None;
                  error := Some SignatureMismatch |}
          else
            catch_ValueError (decode_json payload_b64) PayloadDecodeError
              (fun payload_v =>
            Ok {| valid := true; algorithm := Some algorithm_v;
                  header := Some header_v; payload := Some payload_v;
                  error := None |})))
  | _ => Ok (invalid InvalidFormat)
  end.

(** [except Exception as e]: every exception becomes a result. *)
Definition verify_jwt_signature (jwt_token secret : str) : result :=
  match verify_body jwt_token secret with
  | Ok r => r
  | Raise e => invalid (Unexpected e)
  end.

End Verifier.
End Verifier.

(** ** The examples: texts and an instance of the parameters *)

(** A text written with ['] where it has a double quote. *)
Definition dq (s : str) : str := replace "'" quote s.

(** An instance of the parameters, to run the pipeline on examples. A float
    is named by a text that [json.loads] reads as a number or by the name of
    a constant, and the keyed hash of a message is the key followed by the
    message. *)
Module Instance.

Definition pyfloat : Type := str.

Definition float_of_str (s : str) : option pyfloat :=
  match match_number s with
  | Some (numstr, _, []) => Some numstr
  | _ =>
      if str_eqb s "nan" || str_eqb s "inf" || str_eqb s "-inf" then Some s
      else None
  end.

Definition float_repr (f : pyfloat) : str :=
  if str_eqb f "nan" then "NaN"
  else if str_eqb f "inf" then "Infinity"
  else if str_eqb f "-inf" then "-Infinity"
  else f.

Definition hmac_digest (h : hash_algorithm) (key msg : list ascii) : list ascii :=
  key ++ msg.

Definition analyze_syntax := Syntactic.analyze_syntax float_of_str.
Definition encode_jwt := Encoder.encode_jwt float_of_str float_repr hmac_digest.
Definition verify_jwt_signature :=
  Verifier.verify_jwt_signature float_of_str hmac_digest.

End Instance.

(** * Properties *)

(** ** Python strings *)

Lemma str_eqb_eq (a b : str) : str_eqb a b = true <-> a = b.
Proof.
  unfold str_eqb. destruct (list_eq_dec ascii_dec a b); split; congruence.
Qed.

Lemma str_eqb_refl (a : str) : str_eqb a a = true.
Proof. now apply str_eqb_eq. Qed.

Lemma split_not_nil sep s : split sep s <> [].
Proof.
  induction s as [|c s IH]; simpl; [discriminate|].
  destruct (Ascii.eqb c sep); [discriminate|].
  destruct (split sep s); discriminate.
Qed.

(** A string without separator is its own single part. *)
Lemma split_no_sep sep s :
  Forall (fun c => c <> sep) s -> split sep s = [s].
Proof.
  induction 1 as [|c s Hc _ IH]; simpl; [reflexivity|].
  destruct (Ascii.eqb_spec c sep); [contradiction|].
  now rewrite IH.
Qed.

(** Splitting at the first separator. *)
Lemma split_app sep u rest :
  Forall (fun c => c <> sep) u ->
  split sep (u ++ sep :: rest) = u :: split sep rest.
Proof.
  induction 1 as [|c s Hc _ IH]; simpl.
  - now rewrite Ascii.eqb_refl.
  - destruct (Ascii.eqb_spec c sep); [contradiction|].
    now rewrite IH.
Qed.

(** ** The lexical scanner *)

Module LexerFacts.
Import Lexer.

Definition base64url_charb (c : ascii) : bool :=
  let n := nat_of_ascii c in
  (((65 <=? n) && (n <=? 90)) || ((97 <=? n) && (n <=? 122))
   || ((48 <=? n) && (n <=? 57)) || (n =? 45) || (n =? 95))%nat.

Lemma base64url_charb_spec c : base64url_charb c = true <-> base64url_char c.
Proof.
  unfold base64url_charb, base64url_char; cbv zeta.
  rewrite !orb_true_iff, !andb_true_iff, !Nat.leb_le, !Nat.eqb_eq. tauto.
Qed.

(** The set [b_chars] is the alphabet of the specification, and ['.'] is
    the only delimiter; checked on each of the 256 characters. *)
Lemma class_table c :
  get_char_class c =
  if base64url_charb c then Some b
  else if Ascii.eqb c "." then Some d else None.
Proof.
  destruct c as [[] [] [] [] [] [] [] []]; reflexivity.
Qed.

Lemma class_b c : get_char_class c = Some b <-> base64url_char c.
Proof.
  rewrite class_table, <- base64url_charb_spec.
  destruct (base64url_charb c); [tauto|].
  destruct (Ascii.eqb c "."); split; congruence.
Qed.

Lemma class_d c : get_char_class c = Some d <-> c = "."%char.
Proof.
  rewrite class_table. split.
  - destruct (base64url_charb c); [discriminate|].
    destruct (Ascii.eqb_spec c "."); congruence.
  - intros ->. reflexivity.
Qed.

Lemma base64url_char_not_dot c : base64url_char c -> c <> "."%char.
Proof.
  intros H ->. apply class_b in H. discriminate.
Qed.

Lemma scan_qe token : scan qe token = qe.
Proof.
  induction token as [|c t IH]; simpl; [reflexivity|].
  destruct (get_char_class c) as [[]|]; auto.
Qed.

(** One step of the loop on an alphabet character and on the delimiter. *)
Lemma scan_b q c t : base64url_char c -> scan q (c :: t) = scan (transitions q b) t.
Proof. intros H. apply class_b in H. simpl. now rewrite H. Qed.

Lemma scan_d q t : scan q ("."%char :: t) = scan (transitions q d) t.
Proof. reflexivity. Qed.

(** A state that loops on alphabet characters and leaves on the delimiter
    accepts a run of alphabet characters, the delimiter, and what the next
    state accepts. *)
Lemma accept_loop q q' (L : str -> Prop) :
  transitions q b = q -> transitions q d = q' -> q <> q5 ->
  (forall t, scan q' t = q5 <-> L t) ->
  forall t, scan q t = q5 <->
    exists u v, t = u ++ "."%char :: v /\ Forall base64url_char u /\ L v.
Proof.
  intros Hb Hd Hq HL t. induction t as [|c t IH]; simpl.
  - split; [congruence|]. intros (u & v & E & _). now destruct u.
  - destruct (get_char_class c) as [[]|] eqn:E.
    + rewrite Hb, IH. apply class_b in E. split.
      * intros (u & v & -> & Hu & Hv). exists (c :: u), v. auto.
      * intros (u & v & Et & Hu & Hv). destruct u as [|c' u]; simpl in Et.
        -- injection Et as -> _.
           now exfalso; eapply base64url_char_not_dot; eauto.
        -- injection Et as -> ->. inversion Hu; subst. eauto.
    + rewrite Hd, HL. apply class_d in E. subst c. split.
      * intros Hv. exists [], t. auto.
      * intros (u & v & Et & Hu & Hv). destruct u as [|c' u]; simpl in Et.
        -- now injection Et as ->.
        -- injection Et as <- _. inversion Hu; subst.
           now exfalso; eapply base64url_char_not_dot; eauto.
    + split; [discriminate|].
      intros (u & v & Et & Hu & Hv). destruct u as [|c' u]; simpl in Et.
      * injection Et as -> _. discriminate.
      * injection Et as <- _. inversion Hu as [|? ? Hc]; subst.
        apply class_b in Hc. congruence.
Qed.

(** A state that starts a segment accepts one alphabet character and what
    the next state accepts. *)
Lemma accept_first q q' :
  transitions q b = q' -> transitions q d = qe -> q <> q5 ->
  forall t, scan q t = q5 <->
    exists c t', t = c :: t' /\ base64url_char c /\ scan q' t' = q5.
Proof.
  intros Hb Hd Hq t. destruct t as [|c t]; simpl.
  - split; [congruence|]. now intros (? & ? & ? & _).
  - destruct (get_char_class c) as [[]|] eqn:E.
    + rewrite Hb. apply class_b in E. split; [eauto|].
      now intros (? & ? & [= <- <-] & _ & ?).
    + rewrite Hd, scan_qe. apply class_d in E. subst c.
      split; [discriminate|]. intros (? & ? & [= <- <-] & Hc & _).
      now exfalso; eapply base64url_char_not_dot; eauto.
    + split; [discriminate|]. intros (? & ? & [= <- <-] & Hc & _).
      apply class_b in Hc. congruence.
Qed.

Lemma accept_q5 t : scan q5 t = q5 <-> Forall base64url_char t.
Proof.
  induction t as [|c t IH]; simpl.
  - split; [constructor | reflexivity].
  - destruct (get_char_class c) as [[]|] eqn:E; simpl.
    + rewrite IH. apply class_b in E. split.
      * now constructor.
      * now inversion 1.
    + rewrite scan_qe. split; [discriminate|].
      inversion 1; subst. apply class_d in E. subst.
      now exfalso; eapply base64url_char_not_dot; eauto.
    + split; [discriminate|].
      inversion 1 as [|? ? Hc]; subst. apply class_b in Hc. congruence.
Qed.

Lemma segment_cons c t :
  segment (c :: t) <-> base64url_char c /\ Forall base64url_char t.
Proof.
  unfold segment. split.
  - intros [_ H]. now inversion H.
  - intros [? ?]. split; [discriminate | now constructor].
Qed.

Lemma segment_nil : ~ segment [].
Proof. now intros [? _]. Qed.

Lemma accept_q4 t : scan q4 t = q5 <-> segment t.
Proof.
  rewrite (accept_first q4 q5) by (reflexivity || discriminate). split.
  - intros (c & t' & -> & Hc & Ht). apply segment_cons.
    now rewrite <- accept_q5.
  - destruct t as [|c t]; [now intros ?%segment_nil|].
    intros [? ?]%segment_cons. exists c, t. now rewrite accept_q5.
Qed.

Lemma accept_q3 t :
  scan q3 t = q5 <->
  exists u v, t = u ++ "."%char :: v /\ Forall base64url_char u /\ segment v.
Proof.
  apply (accept_loop q3 q4); try reflexivity; try discriminate.
  apply accept_q4.
Qed.

Lemma accept_q2 t :
  scan q2 t = q5 <->
  exists u v, t = u ++ "."%char :: v /\ segment u /\ segment v.
Proof.
  rewrite (accept_first q2 q3) by (reflexivity || discriminate). split.
  - intros (c & t' & -> & Hc & (u & v & -> & Hu & Hv)%accept_q3).
    exists (c :: u), v. rewrite segment_cons. auto.
  - intros (u & v & -> & Hu & Hv). destruct u as [|c u];
      [now apply segment_nil in Hu|].
    apply segment_cons in Hu as [? ?]. exists c, (u ++ "."%char :: v).
    rewrite accept_q3. repeat split; auto. exists u, v. auto.
Qed.

Lemma accept_q1 t :
  scan q1 t = q5 <->
  exists u v w, t = u ++ "."%char :: v ++ "."%char :: w /\
    Forall base64url_char u /\ segment v /\ segment w.
Proof.
  rewrite (accept_loop q1 q2 _ eq_refl eq_refl ltac:(discriminate) accept_q2).
  split.
  - intros (u & r & -> & Hu & (v & w & -> & Hv & Hw)).
    exists u, v, w. auto.
  - intros (u & v & w & -> & Hu & Hv & Hw).
    exists u, (v ++ "."%char :: w). repeat split; auto.
    exists v, w. auto.
Qed.

(** The language of the automaton: [B+ . B+ . B+]. *)
Lemma accept_q0 t :
  scan q0 t = q5 <->
  exists u v w, t = u ++ "."%char :: v ++ "."%char :: w /\
    segment u /\ segment v /\ segment w.
Proof.
  rewrite (accept_first q0 q1) by (reflexivity || discriminate). split.
  - intros (c & t' & -> & Hc & (u & v & w & -> & Hu & Hv & Hw)%accept_q1).
    exists (c :: u), v, w. rewrite segment_cons. auto.
  - intros (u & v & w & -> & Hu & Hv & Hw). destruct u as [|c u];
      [now apply segment_nil in Hu|].
    apply segment_cons in Hu as [? ?].
    exists c, (u ++ "."%char :: v ++ "."%char :: w).
    rewrite accept_q1. repeat split; auto. exists u, v, w. auto.
Qed.

Lemma is_final_q5 q : is_final q = true <-> q = q5.
Proof. destruct q; simpl; split; congruence. Qed.

Lemma segment_no_dot s :
  Forall base64url_char s -> Forall (fun c => c <> "."%char) s.
Proof.
  apply Forall_impl. intros c. apply base64url_char_not_dot.
Qed.

(** The parts of an accepted token. *)
Lemma split_three u v w :
  Forall base64url_char u -> Forall base64url_char v ->
  Forall base64url_char w ->
  split "." (u ++ "."%char :: v ++ "."%char :: w) = [u; v; w].
Proof.
  intros Hu Hv Hw.
  rewrite split_app by now apply segment_no_dot.
  rewrite split_app by now apply segment_no_dot.
  now rewrite split_no_sep by now apply segment_no_dot.
Qed.

(** C2. [analyze] answers [valid = True] exactly on the strings made of three
    nonempty segments over [[A-Za-z0-9-_]] separated by two ['.'] and of
    nothing else. On accept, [tokens] is the split of the token on ['.'] and
    is these three nonempty segments; on reject, [valid] is [False] and
    [tokens] is the empty list. *)
Theorem analyze_correct (token : str) :
  (valid (analyze token) = true <->
     exists u v w, token = u ++ "."%char :: v ++ "."%char :: w /\
       segment u /\ segment v /\ segment w) /\
  (valid (analyze token) = true ->
     tokens (analyze token) = split "." token /\
     exists u v w, tokens (analyze token) = [u; v; w] /\
       segment u /\ segment v /\ segment w /\
       header (analyze token) = Some u /\
       payload (analyze token) = Some v /\
       signature (analyze token) = Some w) /\
  (valid (analyze token) <> true ->
     valid (analyze token) = false /\ tokens (analyze token) = []).
Proof.
  unfold analyze, start_state.
  destruct (is_final (scan q0 token)) eqn:F; simpl.
  - apply is_final_q5 in F. pose proof F as F'. apply accept_q0 in F'.
    split; [tauto|]. split; [|congruence].
    intros _. split; [reflexivity|].
    destruct F' as (u & v & w & -> & Hu & Hv & Hw).
    exists u, v, w.
    rewrite split_three by (apply Hu || apply Hv || apply Hw).
    simpl. auto 10.
  - split; [|split; [discriminate | auto]].
    split; [discriminate|]. intros H%accept_q0.
    rewrite H in F. discriminate.
Qed.

End LexerFacts.

(** ** Lists three elements at a time *)

Lemma list_ind3 {A} (P : list A -> Prop) :
  P [] -> (forall x, P [x]) -> (forall x y, P [x; y]) ->
  (forall x y z l, P l -> P (x :: y :: z :: l)) ->
  forall l, P l.
Proof.
  intros H0 H1 H2 H3 l.
  enough (P l /\ (forall x, P (x :: l)) /\ (forall x y, P (x :: y :: l)))
    by tauto.
  induction l as [|a l (IH0 & IH1 & IH2)]; auto.
Qed.

Lemma rstrip_app_repeat c body n :
  Forall (fun x => x <> c) body -> rstrip c (body ++ repeat c n) = body.
Proof.
  intros H. induction H as [|x body Hx _ IH]; simpl.
  - induction n as [|n IHn]; simpl; [reflexivity|].
    rewrite IHn. now rewrite Ascii.eqb_refl.
  - rewrite IH. destruct body; [|reflexivity].
    destruct (Ascii.eqb_spec x c); congruence.
Qed.

Lemma rstrip_absent c s : ~ In c s -> rstrip c s = s.
Proof.
  intros H. rewrite <- (app_nil_r s) at 1.
  apply (rstrip_app_repeat c s 0). apply Forall_forall.
  intros x Hx ->. contradiction.
Qed.

Lemma replace_app a b s t : replace a b (s ++ t) = replace a b s ++ replace a b t.
Proof. apply map_app. Qed.

Lemma replace_absent a b s : Forall (fun x => x <> a) s -> replace a b s = s.
Proof.
  induction 1 as [|x s Hx _ IH]; simpl; [reflexivity|].
  destruct (Ascii.eqb_spec x a); congruence.
Qed.

(** ** The Base64URL codec *)

Module CodecFacts.
Import Utf8 Base64.

(** The 6-bit values. *)
Definition six (v : ascii) : Prop :=
  exists b0 b1 b2 b3 b4 b5, v = Ascii b0 b1 b2 b3 b4 b5 false false.

Lemma six_enc1 x : six (enc1 x).
Proof. destruct x; unfold six; simpl; eauto 7. Qed.
Lemma six_enc2 x y : six (enc2 x y).
Proof. destruct x, y; unfold six; simpl; eauto 7. Qed.
Lemma six_enc3 x y : six (enc3 x y).
Proof. destruct x, y; unfold six; simpl; eauto 7. Qed.
Lemma six_enc4 x : six (enc4 x).
Proof. destruct x; unfold six; simpl; eauto 7. Qed.
#[local] Hint Resolve six_enc1 six_enc2 six_enc3 six_enc4 : core.

(** What the alphabet table gives for a 6-bit value: a character that is
    not the padding, that the inverse table maps back, that is ASCII, and
    that the two translations of the URL-safe alphabet send to itself. *)
Definition std_char (c : ascii) : Prop :=
  c <> BASE64_PAD /\ is_ascii c = true /\ cont c = false /\
  c <> "-"%char /\ c <> "_"%char.

Definition to_url (c : ascii) : ascii :=
  if Ascii.eqb (if Ascii.eqb c "+" then "-"%char else c) "/" then "_"%char
  else if Ascii.eqb c "+" then "-"%char else c.

Definition of_url (c : ascii) : ascii :=
  if Ascii.eqb (if Ascii.eqb c "-" then "+"%char else c) "_" then "/"%char
  else if Ascii.eqb c "-" then "+"%char else c.

Lemma b2a_six v :
  six v ->
  a2b (b2a v) = Some v /\ std_char (b2a v) /\
  of_url (to_url (b2a v)) = b2a v /\ to_url (b2a v) <> BASE64_PAD /\
  is_ascii (to_url (b2a v)) = true /\ cont (to_url (b2a v)) = false.
Proof.
  intros (b0 & b1 & b2 & b3 & b4 & b5 & ->). unfold std_char.
  destruct b0, b1, b2, b3, b4, b5;
    (repeat split; (reflexivity || discriminate)).
Qed.

Lemma a2b_b2a v : six v -> a2b (b2a v) = Some v.
Proof. intros H. apply b2a_six in H. tauto. Qed.

Lemma b2a_std v : six v -> std_char (b2a v).
Proof. intros H. apply b2a_six in H. tauto. Qed.

Lemma b2a_not_pad v : six v -> Ascii.eqb (b2a v) BASE64_PAD = false.
Proof.
  intros H. apply b2a_std in H as [H _].
  now destruct (Ascii.eqb_spec (b2a v) BASE64_PAD).
Qed.

(** The three bytes of a quad are recovered from its four 6-bit values. *)
Lemma dec1_enc x y : dec1 (enc1 x) (enc2 x y) = x.
Proof. now destruct x, y. Qed.
Lemma dec2_enc x y z : dec2 (enc2 x y) (enc3 y z) = y.
Proof. now destruct x, y, z. Qed.
Lemma dec3_enc y z : dec3 (enc3 y z) (enc4 z) = z.
Proof. now destruct y, z. Qed.

(** The output of [b64encode] without its padding, and the length of the
    padding. *)
Fixpoint body (s : list ascii) : str :=
  match s with
  | [] => []
  | [x] => [b2a (enc1 x); b2a (enc2 x zero)]
  | [x; y] => [b2a (enc1 x); b2a (enc2 x y); b2a (enc3 y zero)]
  | x :: y :: z :: rest =>
      b2a (enc1 x) :: b2a (enc2 x y) :: b2a (enc3 y z) :: b2a (enc4 z)
      :: body rest
  end.

Fixpoint npad (s : list ascii) : nat :=
  match s with
  | [] => 0
  | [x] => 2
  | [x; y] => 1
  | x :: y :: z :: rest => npad rest
  end.

Lemma b64encode_body s : b64encode s = body s ++ repeat BASE64_PAD (npad s).
Proof.
  induction s as [| | |x y z s IH] using list_ind3; try reflexivity.
  cbn [b64encode body npad app]. now rewrite IH.
Qed.

Lemma body_std s : Forall std_char (body s).
Proof.
  induction s as [| | |x y z s IH] using list_ind3; cbn [body];
    repeat (apply Forall_cons; [apply b2a_std; auto|]); auto.
Qed.

(** Decoding what [b64encode] produces gives the bytes back. *)
Lemma b64decode_b64encode s : b64decode (b64encode s) = Ok s.
Proof.
  unfold b64decode.
  induction s as [|x|x y|x y z s IH] using list_ind3.
  - reflexivity.
  - cbn [b64encode a2b_loop].
    rewrite !b2a_not_pad, !a2b_b2a by auto. cbn.
    now rewrite dec1_enc.
  - cbn [b64encode a2b_loop].
    rewrite !b2a_not_pad, !a2b_b2a by auto. cbn.
    now rewrite dec1_enc, dec2_enc.
  - cbn [b64encode a2b_loop].
    rewrite !b2a_not_pad, !a2b_b2a by auto.
    rewrite IH. cbn. now rewrite dec1_enc, dec2_enc, dec3_enc.
Qed.

Lemma to_url_replace s : replace "/" "_" (replace "+" "-" s) = map to_url s.
Proof.
  unfold replace. rewrite map_map. apply map_ext. intros c. unfold to_url.
  destruct (Ascii.eqb c "+"); reflexivity.
Qed.

Lemma of_url_replace s : replace "_" "/" (replace "-" "+" s) = map of_url s.
Proof.
  unfold replace. rewrite map_map. apply map_ext. intros c. unfold of_url.
  destruct (Ascii.eqb c "-"); reflexivity.
Qed.

Lemma of_url_fix c : c <> "-"%char -> c <> "_"%char -> of_url c = c.
Proof.
  intros H1 H2. unfold of_url.
  destruct (Ascii.eqb_spec c "-"); [contradiction|].
  destruct (Ascii.eqb_spec c "_"); [contradiction|reflexivity].
Qed.

Lemma map_id_on {A} (f : A -> A) (P : A -> Prop) l :
  (forall x, P x -> f x = x) -> Forall P l -> map f l = l.
Proof.
  intros Hf. induction 1 as [|x l Hx _ IH]; simpl; [reflexivity|].
  now rewrite Hf, IH.
Qed.

(** The characters [b64encode] writes before the padding. *)
Definition b2a_image (c : ascii) : Prop := exists v, six v /\ c = b2a v.

Lemma body_image s : Forall b2a_image (body s).
Proof.
  assert (H : forall v, six v -> b2a_image (b2a v)) by (intros v; exists v; auto).
  induction s as [| | |x y z s IH] using list_ind3; cbn [body];
    repeat (apply Forall_cons; [apply H; auto|]); auto.
Qed.

Lemma b2a_image_std c : b2a_image c -> std_char c.
Proof. intros (v & Hv & ->). now apply b2a_std. Qed.

(** Stripped of its padding, the URL-safe encoding is the translated
    output of [b64encode] without its padding. *)
Lemma rstrip_urlsafe_b64encode bs :
  rstrip "=" (urlsafe_b64encode bs) = map to_url (body bs).
Proof.
  unfold urlsafe_b64encode.
  rewrite to_url_replace, b64encode_body, map_app, map_repeat.
  change (to_url BASE64_PAD) with "="%char.
  apply rstrip_app_repeat. apply Forall_map.
  eapply Forall_impl; [|apply body_image].
  intros c (v & Hv & ->). now apply b2a_six in Hv.
Qed.

Lemma encode_base64url_body text :
  utf8_valid text = true ->
  encode_base64url text = Ok (map to_url (body text)).
Proof.
  intros Hvalid. unfold encode_base64url, str_encode.
  rewrite Hvalid. cbn [bind]. now rewrite rstrip_urlsafe_b64encode.
Qed.

Lemma encode_base64url_inv text segment :
  encode_base64url text = Ok segment ->
  utf8_valid text = true /\ segment = map to_url (body text).
Proof.
  unfold encode_base64url, str_encode.
  destruct (utf8_valid text); cbn [bind]; [|discriminate].
  rewrite rstrip_urlsafe_b64encode. now intros [= <-].
Qed.

Lemma url_body_ascii bs : forallb is_ascii (map to_url (body bs)) = true.
Proof.
  apply forallb_forall. intros c Hin.
  apply in_map_iff in Hin as (c0 & <- & Hin).
  pose proof (body_image bs) as H. rewrite Forall_forall in H.
  apply H in Hin as (v & Hv & ->). now apply b2a_six in Hv.
Qed.

(** The unpadded URL-safe text holds no padding character and no dot. *)
Lemma url_body_chars s c :
  In c (map to_url (body s)) -> c <> "="%char /\ c <> "."%char.
Proof.
  intros Hin. apply in_map_iff in Hin as (c0 & <- & Hin).
  pose proof (body_image s) as H. rewrite Forall_forall in H.
  apply H in Hin as (v & (b0 & b1 & b2 & b3 & b4 & b5 & ->) & ->).
  destruct b0, b1, b2, b3, b4, b5; split; discriminate.
Qed.

Lemma of_url_body text : map of_url (map to_url (body text)) = body text.
Proof.
  rewrite map_map. apply map_id_on with (P := b2a_image); [|apply body_image].
  intros c (v & Hv & ->). now apply b2a_six in Hv.
Qed.

Lemma py_len_std s : Forall std_char s -> py_len s = length s.
Proof.
  unfold py_len. induction 1 as [|c s (_ & _ & Hc & _) _ IH]; simpl;
    [reflexivity|].
  rewrite Hc. simpl. now rewrite IH.
Qed.

(** Restoring the padding of the unpadded text gives the output of
    [b64encode]. *)
Lemma restore_padding s :
  (if (4 - length (body s) mod 4 =? 4)%nat then body s
   else body s ++ str_repeat "=" (4 - length (body s) mod 4)) = b64encode s.
Proof.
  induction s as [| | |x y z s IH] using list_ind3; try reflexivity.
  cbn [b64encode body length].
  replace (S (S (S (S (length (body s)))))) with (length (body s) + 1 * 4)
    by lia.
  rewrite Nat.Div0.mod_add.
  destruct (4 - length (body s) mod 4 =? 4)%nat; simpl; now rewrite <- IH.
Qed.

Lemma b64encode_fixed s :
  forallb is_ascii (b64encode s) = true /\
  map of_url (b64encode s) = b64encode s.
Proof.
  rewrite b64encode_body, forallb_app, map_app, map_repeat.
  change (of_url BASE64_PAD) with BASE64_PAD. split.
  - apply andb_true_iff. split.
    + apply forallb_forall. intros c Hc.
      pose proof (body_std s) as H. rewrite Forall_forall in H.
      now apply H in Hc as (_ & ? & _).
    + apply forallb_forall. intros c ->%repeat_spec. reflexivity.
  - f_equal. apply map_id_on with (P := std_char); [|apply body_std].
    intros c (_ & _ & _ & ? & ?). now apply of_url_fix.
Qed.

Lemma urlsafe_b64decode_b64encode s :
  urlsafe_b64decode (b64encode s) = Ok s.
Proof.
  unfold urlsafe_b64decode.
  destruct (b64encode_fixed s) as [-> H].
  rewrite of_url_replace, H. apply b64decode_b64encode.
Qed.

(** Decoding the unpadded URL-safe text of some bytes gives the bytes,
    when they are well-formed UTF-8. *)
Lemma decode_base64url_body text :
  utf8_valid text = true ->
  decode_base64url (map to_url (body text)) = Ok text.
Proof.
  intros Hvalid. unfold decode_base64url.
  rewrite of_url_replace, of_url_body.
  rewrite py_len_std by apply body_std.
  rewrite restore_padding, urlsafe_b64decode_b64encode.
  now rewrite Hvalid.
Qed.

(** C6. [encode_base64url] never emits the padding character ['='], and
    [decode_base64url], which puts the stripped padding back before it
    decodes, is a left inverse of it: for every text (a string that has a
    UTF-8 encoding), decoding the encoding of the text gives the text. *)
Theorem decode_encode_base64url (text : str) :
  utf8_valid text = true ->
  exists segment,
    encode_base64url text = Ok segment /\
    ~ In "="%char segment /\
    decode_base64url segment = Ok text.
Proof.
  intros Hvalid. exists (map to_url (body text)).
  split; [now apply encode_base64url_body|]. split.
  - intros Hin. now apply url_body_chars in Hin.
  - now apply decode_base64url_body.
Qed.

(** The hypothesis of C6 holds and its conclusion is observed on a text
    with a two-byte character, whose encoding needs one padding character. *)
Lemma decode_encode_base64url_witness :
  utf8_valid "café" = true /\
  exists segment,
    encode_base64url "café" = Ok segment /\
    ~ In "="%char segment /\
    decode_base64url segment = Ok ("café" : str).
Proof.
  split; [reflexivity|].
  apply (decode_encode_base64url "café"). reflexivity.
Defined.

Example cafe_bytes :
  length ("café" : str) = 5 /\ encode_base64url "café" = Ok ("Y2Fmw6k" : str).
Proof. split; reflexivity. Qed.

End CodecFacts.

(** ** The semantic rule engine *)

Module SemanticFacts.
Import Semantic.

Section Rules.
Context {pyfloat : Type}.
Implicit Types (h p : dict pyfloat) (v : value pyfloat).

Lemma dict_has_get h k :
  dict_has h k = match dict_get h k with Some _ => true | None => false end.
Proof. reflexivity. Qed.

Lemma subscript_get h k :
  subscript h k =
  match dict_get h k with Some x => Ok x | None => Raise KeyError end.
Proof. reflexivity. Qed.

(** The order of the checks of the header. *)
Lemma validate_header_rules h :
  validate_header h =
  match dict_get h "alg", dict_get h "typ" with
  | None, _ => Raise (MissingClaimError "alg")
  | Some _, None => Raise (MissingClaimError "typ")
  | Some alg, Some typ =>
      if negb (isinstance_str alg) then Raise (InvalidDataTypeError "alg")
      else if negb (isinstance_str typ) then Raise (InvalidDataTypeError "typ")
      else if negb (supported alg) then Raise (InvalidValueError "alg")
      else if negb (eq_str typ "JWT") then Raise (InvalidValueError "typ")
      else Ok tt
  end.
Proof.
  unfold validate_header. rewrite !dict_has_get, !subscript_get.
  destruct (dict_get h "alg") as [alg|]; [|reflexivity].
  destruct (dict_get h "typ") as [typ|]; [|reflexivity].
  cbn [negb raise_if bind].
  destruct (isinstance_str alg); [|reflexivity].
  destruct (isinstance_str typ); [|reflexivity].
  cbn [negb raise_if bind].
  destruct (supported alg); reflexivity.
Qed.

(** C4, as the code has it. The checks of the header run in the fixed order:
    ['alg'] present, ['typ'] present, ['alg'] a String, ['typ'] a String,
    ['alg'] in [{HS256, HS384}], ['typ'] equal to ["JWT"]; the first rule
    violated raises its typed error and the later rules are not checked. In
    particular a header whose ['alg'] is present but not a String and whose
    ['typ'] is absent raises [MissingClaimError] for ['typ']. *)
Theorem validate_header_order h :
  validate_header h =
    (match dict_get h "alg", dict_get h "typ" with
     | None, _ => Raise (MissingClaimError "alg")
     | Some _, None => Raise (MissingClaimError "typ")
     | Some alg, Some typ =>
         if negb (isinstance_str alg) then Raise (InvalidDataTypeError "alg")
         else if negb (isinstance_str typ) then Raise (InvalidDataTypeError "typ")
         else if negb (supported alg) then Raise (InvalidValueError "alg")
         else if negb (eq_str typ "JWT") then Raise (InvalidValueError "typ")
         else Ok tt
     end) /\
  (forall alg, dict_get h "alg" = Some alg -> isinstance_str alg = false ->
     dict_get h "typ" = None ->
     validate_header h = Raise (MissingClaimError "typ")).
Proof.
  split; [apply validate_header_rules|].
  intros alg Halg _ Htyp. now rewrite validate_header_rules, Halg, Htyp.
Qed.

(** The header passes exactly when both claims are the expected strings. *)
Lemma validate_header_ok h :
  validate_header h = Ok tt <->
  (exists alg, dict_get h "alg" = Some (VStr alg) /\
     (alg = ("HS256" : str) \/ alg = ("HS384" : str))) /\
  dict_get h "typ" = Some (VStr "JWT").
Proof.
  rewrite validate_header_rules.
  destruct (dict_get h "alg") as [alg|];
    [|split; [discriminate | now intros [(? & [=] & _) _]]].
  destruct (dict_get h "typ") as [typ|];
    [|split; [discriminate | now intros [_ [=]]]].
  destruct alg as [| | | |a| |];
    try (split; [discriminate | now intros [(? & [=] & _) _]]).
  destruct typ as [| | | |t| |];
    try (split; [discriminate | now intros [_ [=]]]).
  cbn [isinstance_str negb supported supported_algorithms existsb eq_str].
  assert (L : forall (b1 b2 : bool) (e1 e2 : exn),
             (if negb b1 then Raise e1
              else if negb b2 then Raise e2 else Ok tt) = Ok tt
             <-> b1 = true /\ b2 = true).
  { intros [] [] e1 e2; cbn; split; try tauto; try discriminate;
      intros [? ?]; discriminate. }
  rewrite L, orb_false_r, orb_true_iff, !str_eqb_eq. split.
  - intros [Ha ->]. split; [exists a; auto | reflexivity].
  - intros [(x & [= <-] & Hx) [= ->]]. auto.
Qed.

(** The checks that follow those of ['exp'] and ['nbf']. *)
Definition other_claims p : res unit :=
  do _ <- check_type p "iat" isinstance_int;
  do _ <- check_type p "iss" isinstance_str;
  do _ <- check_type p "sub" isinstance_str;
  if dict_has p "aud" then
    do aud <- subscript p "aud";
    let es_string := isinstance_str aud in
    let es_list := match aud with VList l => all_str l | _ => false end in
    raise_if (negb (es_string || es_list)) (InvalidDataTypeError "aud")
  else Ok tt.

Definition nbf_rule p (now : Z) : res unit :=
  match dict_get p "nbf" with
  | None => other_claims p
  | Some nbf =>
      if negb (isinstance_int nbf) then Raise (InvalidDataTypeError "nbf")
      else if (now <? int_value nbf)%Z then Raise NotActiveTokenError
      else other_claims p
  end.

(** ['exp'] is checked before ['nbf'], each for its type and then for its
    value against the current time; [isinstance_int] is the type test. *)
Lemma validate_payload_rules p (now : Z) :
  validate_payload p now =
  match dict_get p "exp" with
  | None => nbf_rule p now
  | Some exp =>
      if negb (isinstance_int exp) then Raise (InvalidDataTypeError "exp")
      else if (int_value exp <=? now)%Z then Raise ExpirationDateError
      else nbf_rule p now
  end.
Proof.
  unfold validate_payload, nbf_rule, other_claims.
  rewrite !dict_has_get, !subscript_get.
  destruct (dict_get p "exp") as [exp|]; cbn [bind].
  - destruct (isinstance_int exp); cbn [negb raise_if bind]; [|reflexivity].
    destruct (int_value exp <=? now)%Z; cbn [raise_if bind]; [reflexivity|].
    destruct (dict_get p "nbf") as [nbf|]; cbn [bind]; [|reflexivity].
    destruct (isinstance_int nbf); cbn [negb raise_if bind]; [|reflexivity].
    destruct (now <? int_value nbf)%Z; reflexivity.
  - destruct (dict_get p "nbf") as [nbf|]; cbn [bind]; [|reflexivity].
    destruct (isinstance_int nbf); cbn [negb raise_if bind]; [|reflexivity].
    destruct (now <? int_value nbf)%Z; reflexivity.
Qed.

(** What C5 states holds of every payload whose ['exp'] and ['nbf'] are not
    Booleans: a value that is no Integer raises [InvalidDataTypeError], an
    Integer ['exp'] not after [now] raises [ExpirationDateError], then an
    Integer ['nbf'] after [now] raises [NotActiveTokenError], and ['exp'] in
    the future with ['nbf'] in the past or absent passes both checks. *)
Lemma validate_payload_integers p (now : Z) :
  (forall b, dict_get p "exp" <> Some (VBool b)) ->
  (forall b, dict_get p "nbf" <> Some (VBool b)) ->
  validate_payload p now =
  match dict_get p "exp" with
  | Some (VInt exp) =>
      if (now >=? exp)%Z then Raise ExpirationDateError
      else match dict_get p "nbf" with
           | Some (VInt nbf) =>
               if (now <? nbf)%Z then Raise NotActiveTokenError
               else other_claims p
           | Some _ => Raise (InvalidDataTypeError "nbf")
           | None => other_claims p
           end
  | Some _ => Raise (InvalidDataTypeError "exp")
  | None =>
      match dict_get p "nbf" with
      | Some (VInt nbf) =>
          if (now <? nbf)%Z then Raise NotActiveTokenError
          else other_claims p
      | Some _ => Raise (InvalidDataTypeError "nbf")
      | None => other_claims p
      end
  end.
Proof.
  intros Hexp Hnbf. rewrite validate_payload_rules. unfold nbf_rule.
  destruct (dict_get p "exp") as [[]|]; try reflexivity;
    try (now exfalso; eapply Hexp);
    cbn [isinstance_int negb int_value];
    rewrite ?Z.geb_leb;
    try destruct (_ <=? now)%Z; try reflexivity;
    destruct (dict_get p "nbf") as [[]|]; try reflexivity;
    now exfalso; eapply Hnbf.
Qed.

End Rules.

(** C4, as stated, fails: with ['alg'] the integer 123 and no ['typ'], the
    engine raises [MissingClaimError] for ['typ'] and not
    [InvalidDataTypeError] for ['alg']. *)
Lemma alg_not_checked_before_typ :
  let h : dict Instance.pyfloat := [("alg" : str, VInt 123)] in
  dict_get h "alg" = Some (VInt 123) /\
  dict_get h "typ" = None /\
  validate_header h = Raise (MissingClaimError "typ") /\
  validate_header h <> Raise (InvalidDataTypeError "alg").
Proof. cbv zeta. repeat split. discriminate. Qed.

(** C5 fails on Booleans: [isinstance(True, int)] holds in Python, so a
    Boolean ['nbf'] or ['exp'] is taken for the Integer 1 or 0 and raises no
    [InvalidDataTypeError]. With [now = 1700000000], the payload
    [{"nbf": true}] passes, and [{"exp": true}] is reported as expired. *)
Theorem boolean_numeric_date :
  validate_payload (pyfloat := Instance.pyfloat)
    [("nbf" : str, VBool true)] 1700000000 = Ok tt /\
  validate_payload (pyfloat := Instance.pyfloat)
    [("exp" : str, VBool true)] 1700000000 = Raise ExpirationDateError.
Proof. split; reflexivity. Qed.

(** The examples of the specification: [exp = now - 1] is expired and
    [exp = now + 3600] passes; [nbf = now + 3600] is not active and
    [nbf = now - 3600] passes. *)
Example semantic_expiry :
  let h : dict Instance.pyfloat :=
    [("alg" : str, VStr "HS256"); ("typ" : str, VStr "JWT")] in
  let now := 1700000000%Z in
  analyze h [("exp" : str, VInt (now - 1))] now = Raise ExpirationDateError /\
  analyze h [("exp" : str, VInt (now + 3600))] now
    = Ok (h, [("exp" : str, VInt (now + 3600))]) /\
  analyze h [("nbf" : str, VInt (now + 3600))] now = Raise NotActiveTokenError /\
  analyze h [("nbf" : str, VInt (now - 3600))] now
    = Ok (h, [("nbf" : str, VInt (now - 3600))]).
Proof. cbv zeta. repeat split. Qed.

End SemanticFacts.

(** ** The structural phase *)

Module SyntacticFacts.
Import Syntactic.

Section Checks.
Context {pyfloat : Type}.
Variable float_of_str : str -> option pyfloat.

(** [valid] is set exactly when the list of errors is empty. *)
Lemma valid_iff_no_error header_str payload_str r :
  analyze_syntax float_of_str header_str payload_str = Ok r ->
  (valid r = true <-> errors r = []).
Proof.
  unfold analyze_syntax.
  destruct (parse_text float_of_str header_str) as [h|];
    [|intros [= <-]; simpl; split; discriminate].
  destruct (parse_text float_of_str payload_str) as [p|];
    [|intros [= <-]; simpl; split; discriminate].
  destruct (validations h p) as [errs|]; [|discriminate].
  intros [= <-]. simpl. destruct errs; split; congruence.
Qed.

(** The checks on objects: each one adds its error, none stops the
    others. *)
Definition numeric_date_error (p : dict pyfloat) (t : str) : list syntax_error :=
  match dict_get p t with
  | Some x => if isinstance_int x then [] else [ClaimNotInt t]
  | None => []
  end.

Lemma check_numeric_date_dict (p : dict pyfloat) t errs :
  check_numeric_date (VDict p) t errs = Ok (errs ++ numeric_date_error p t).
Proof.
  unfold check_numeric_date, numeric_date_error, py_in, getitem, dict_has.
  cbn [bind]. destruct (dict_get p t) as [x|]; cbn [bind].
  - unfold append_if. destruct (isinstance_int x); cbn [negb];
      now rewrite ?app_nil_r.
  - now rewrite app_nil_r.
Qed.

Definition aud_error (p : dict pyfloat) : list syntax_error :=
  match dict_get p "aud" with
  | Some (VList l) => if all_str l then [] else [AudNotListOfStr]
  | Some (VStr _) => []
  | Some _ => [AudNotStrOrList]
  | None => []
  end.

Definition permissions_error (p : dict pyfloat) : list syntax_error :=
  match dict_get p "permissions" with
  | Some (VList l) => if all_str l then [] else [PermissionsNotListOfStr]
  | Some _ => [PermissionsNotListOfStr]
  | None => []
  end.

Definition header_errors (h : dict pyfloat) : list syntax_error :=
  (if dict_has h "alg" then [] else [MissingAlg])
  ++ match dict_get h "typ" with
     | None => [MissingTyp]
     | Some typ => if eq_str typ "JWT" then [] else [TypNotJWT]
     end.

Lemma check_aud_dict (p : dict pyfloat) errs :
  check_aud (VDict p) errs = Ok (errs ++ aud_error p).
Proof.
  unfold check_aud, aud_error, py_in, getitem, dict_has. cbn [bind].
  destruct (dict_get p "aud") as [aud|]; cbn [bind];
    [|now rewrite app_nil_r].
  destruct aud; cbn [isinstance_str negb append_if];
    try destruct (all_str _); cbn [negb append_if];
    now rewrite ?app_nil_r.
Qed.

Lemma check_permissions_dict (p : dict pyfloat) errs :
  check_permissions (VDict p) errs = Ok (errs ++ permissions_error p).
Proof.
  unfold check_permissions, permissions_error, py_in, getitem, dict_has.
  cbn [bind].
  destruct (dict_get p "permissions") as [perms|]; cbn [bind];
    [|now rewrite app_nil_r].
  destruct perms; try destruct (all_str _); cbn [negb append_if];
    now rewrite ?app_nil_r.
Qed.

(** On two objects the checks raise nothing and return every violation. *)
Lemma validations_dict (h p : dict pyfloat) :
  validations (VDict h) (VDict p) =
  Ok (header_errors h ++ numeric_date_error p "iat"
      ++ numeric_date_error p "exp" ++ numeric_date_error p "nbf"
      ++ aud_error p ++ permissions_error p).
Proof.
  unfold validations.
  cbn [isinstance_dict negb append_if py_in bind getitem].
  assert (E : (if negb (dict_has h "typ")
               then Ok (append_if (negb (dict_has h "alg")) MissingAlg []
                        ++ [MissingTyp])
               else do typ <- match dict_get h "typ" with
                              | Some x => Ok x
                              | None => Raise KeyError
                              end;
                    Ok (append_if (negb (eq_str typ "JWT")) TypNotJWT
                          (append_if (negb (dict_has h "alg")) MissingAlg [])))
              = Ok (header_errors h)).
  { unfold header_errors, dict_has.
    destruct (dict_get h "alg"); destruct (dict_get h "typ") as [typ|];
      cbn [negb append_if bind app]; try reflexivity;
      destruct (eq_str typ "JWT"); reflexivity. }
  rewrite E. cbn [bind].
  do 3 (rewrite check_numeric_date_dict; cbn [bind]).
  rewrite check_aud_dict. cbn [bind].
  rewrite check_permissions_dict. now rewrite <- !app_assoc.
Qed.

(** C3, as the code has it. On a header text and a payload text that parse
    to objects, a single call returns every violation of the rules the
    structural phase has, not the first one only, and [valid] is true
    exactly when the list of errors is empty. These rules check that ['alg']
    is present, not its type: for the header [{"alg":123,"typ":"JWX"}] and
    the payload [{}] the list holds the mismatch of ['typ'] alone. *)
Theorem structural_errors header_str payload_str (h p : dict pyfloat) :
  parse_text float_of_str header_str = Ok (VDict h) ->
  parse_text float_of_str payload_str = Ok (VDict p) ->
  exists r,
    analyze_syntax float_of_str header_str payload_str = Ok r /\
    errors r =
      header_errors h ++ numeric_date_error p "iat"
      ++ numeric_date_error p "exp" ++ numeric_date_error p "nbf"
      ++ aud_error p ++ permissions_error p /\
    (valid r = true <-> errors r = []) /\
    (h = [("alg" : str, VInt 123); ("typ" : str, VStr "JWX")] -> p = [] ->
     errors r = [TypNotJWT]).
Proof.
  intros Hh Hp. unfold analyze_syntax. rewrite Hh, Hp, validations_dict.
  cbn [bind]. eexists. split; [reflexivity|]. cbn [errors valid].
  split; [reflexivity|]. split.
  - destruct (header_errors h ++ _); split; congruence.
  - intros -> ->. reflexivity.
Qed.

End Checks.

(** C3, as stated, fails: on the header [{"alg":123,"typ":"JWX"}] and the
    payload [{}] the list of errors holds the mismatch of ['typ'] and
    nothing about ['alg'], whose type the structural phase does not check. *)
Lemma no_alg_type_violation :
  Instance.analyze_syntax (dq "{'alg':123,'typ':'JWX'}") (dq "{}") =
  Ok {| success := true; valid := false;
        header := VDict [("alg" : str, VInt 123); ("typ" : str, VStr "JWX")];
        payload := VDict [];
        errors := [TypNotJWT] |}.
Proof. reflexivity. Qed.

(** The hypotheses of C3 hold of the two texts of the claim. *)
Lemma structural_errors_witness :
  exists r,
    Instance.analyze_syntax (dq "{'alg':123,'typ':'JWX'}") (dq "{}") = Ok r /\
    errors r = [TypNotJWT] /\
    (valid r = true <-> errors r = []).
Proof.
  destruct (structural_errors Instance.float_of_str
              (dq "{'alg':123,'typ':'JWX'}") (dq "{}")
              [("alg" : str, VInt 123); ("typ" : str, VStr "JWX")] []
              eq_refl eq_refl) as (r & Hr & _ & Hv & He).
  exists r. split; [exact Hr|]. split; [now apply He | exact Hv].
Defined.

(** Several violations are returned by one call. *)
Example structural_aggregation :
  exists r,
    Instance.analyze_syntax (dq "{'typ':'JWX'}")
      (dq "{'exp':'soon','aud':[1],'permissions':'all'}") = Ok r /\
    errors r = [MissingAlg; TypNotJWT; ClaimNotInt "exp"; AudNotListOfStr;
                PermissionsNotListOfStr].
Proof. eexists. split; reflexivity. Qed.

(** C9 fails on a header text that parses to a value that is no container:
    after the error "Header debe ser objeto JSON." is recorded, the test
    ["alg" not in header] raises [TypeError], which nothing catches. A text
    that parses to a list is reported without an exception, unless the list
    holds the string ["typ"]. *)
Theorem structural_phase_raises :
  Instance.analyze_syntax "5" (dq "{}") = Raise TypeError /\
  Instance.analyze_syntax (dq "['typ']") (dq "{}") = Raise TypeError /\
  Instance.analyze_syntax (dq "{}") "null" = Raise TypeError /\
  Instance.analyze_syntax "[1,2]" (dq "{}") =
    Ok {| success := true; valid := false;
          header := VList [VInt 1; VInt 2]; payload := VDict [];
          errors := [HeaderNotObject; MissingAlg; MissingTyp] |}.
Proof. repeat split. Qed.

End SyntacticFacts.

(** ** The verifier *)

Module VerifierFacts.
Import Verifier.

Section Results.
Context {pyfloat : Type}.
Variable float_of_str : str -> option pyfloat.
Variable hmac_digest : hash_algorithm -> list ascii -> list ascii -> list ascii.

#[local] Abbreviation verify := (verify_jwt_signature float_of_str hmac_digest).
#[local] Abbreviation body := (verify_body float_of_str hmac_digest).

(** A token that does not split into three parts gets the shape error. *)
Lemma verify_not_three_parts jwt_token secret :
  length (split "." jwt_token) <> 3 ->
  verify jwt_token secret = invalid InvalidFormat.
Proof.
  unfold verify_jwt_signature, verify_body.
  destruct (split "." jwt_token) as [|a [|b0 [|c [|d0 l]]]]; simpl;
    intros H; try reflexivity.
  now contradiction H.
Qed.

(** The results of a token of three parts: an error other than the shape
    error, a mismatch of the signatures, or a success. *)
Lemma verify_three_parts (P : result (pyfloat := pyfloat) -> Prop)
    jwt_token secret :
  length (split "." jwt_token) = 3 ->
  (forall e, e <> InvalidFormat -> P (invalid e)) ->
  (forall alg hdr,
     P {| valid := false; algorithm := Some alg; header := Some hdr;
          payload := None; error := Some SignatureMismatch |}) ->
  (forall alg hdr pl,
     P {| valid := true; algorithm := Some alg; header := Some hdr;
          payload := Some pl; error := None |}) ->
  P (verify jwt_token secret).
Proof.
  intros Hlen Herr Hmis Hok.
  unfold verify_jwt_signature, verify_body.
  destruct (split "." jwt_token) as [|hb [|pb [|sg [|x l]]]];
    try discriminate Hlen. clear Hlen.
  assert (Hcatch : forall A (r : res A) e k,
             e <> InvalidFormat ->
             (forall a, P match k a with
                          | Ok r => r
                          | Raise x => invalid (Unexpected x)
                          end) ->
             P match catch_ValueError r e k with
               | Ok r => r
               | Raise x => invalid (Unexpected x)
               end).
  { intros A r e k He Hk. destruct r as [a|x]; simpl; [apply Hk|].
    destruct (is_ValueError x); apply Herr; [exact He | discriminate]. }
  apply Hcatch; [discriminate|]. intros hdr.
  destruct (py_in "alg" hdr) as [has_alg|x]; cbn [bind];
    [|apply Herr; discriminate].
  destruct has_alg; cbn [negb]; [|apply Herr; discriminate].
  destruct (getitem hdr "alg") as [alg|x]; cbn [bind];
    [|apply Herr; discriminate].
  destruct (existsb (eq_str alg) _); cbn [negb]; [|apply Herr; discriminate].
  apply Hcatch; [discriminate|]. intros recalculated.
  destruct (compare_digest _ _) as [same|x]; cbn [bind];
    [|apply Herr; discriminate].
  destruct same; cbn [negb]; [|apply Hmis].
  apply Hcatch; [discriminate|]. intros pl. apply Hok.
Qed.

(** C10. [verify_jwt_signature] returns a result for every token and every
    secret: an exception raised in its body is turned into a result by the
    outer handler. The result always has the Boolean [valid]; when [valid]
    is true it has the algorithm, the decoded header and the decoded
    payload, and when [valid] is false it has an error. *)
Theorem verify_total (jwt_token secret : str) :
  let r := verify jwt_token secret in
  (forall e, body jwt_token secret = Raise e -> r = invalid (Unexpected e)) /\
  (valid r = true ->
     algorithm r <> None /\ header r <> None /\ payload r <> None) /\
  (valid r = false -> error r <> None).
Proof.
  cbv zeta. split.
  - intros e He. unfold verify_jwt_signature. now rewrite He.
  - destruct (Nat.eq_dec (length (split "." jwt_token)) 3) as [H3|H3].
    + apply verify_three_parts; [exact H3| | |]; intros; simpl;
        (split; [intros; try discriminate; repeat split; discriminate
                |intros; try discriminate]).
    + rewrite verify_not_three_parts by exact H3. simpl.
      split; [discriminate|]. intros _. discriminate.
Qed.

(** C7, as the code has it. The verifier does not run the lexical scanner:
    it splits the token on ['.'] and returns the shape error exactly when
    the parts are not three. A token that the scanner rejects and that has
    three parts is decoded. *)
Theorem verify_shape_error (jwt_token secret : str) :
  (error (verify jwt_token secret) = Some InvalidFormat <->
   length (split "." jwt_token) <> 3) /\
  (length (split "." jwt_token) <> 3 ->
   verify jwt_token secret = invalid InvalidFormat /\
   Lexer.valid (Lexer.analyze jwt_token) = false).
Proof.
  assert (Hlex : length (split "." jwt_token) <> 3 ->
                 Lexer.valid (Lexer.analyze jwt_token) = false).
  { intros H3. destruct (Lexer.valid (Lexer.analyze jwt_token)) eqn:E;
      [|reflexivity].
    destruct (LexerFacts.analyze_correct jwt_token) as (_ & Hacc & _).
    destruct (Hacc E) as (Hsplit & u & v & w & Htok & _).
    rewrite <- Hsplit, Htok in H3. now contradiction H3. }
  split; [split|].
  - intros Herr H3. revert Herr.
    apply verify_three_parts; [exact H3| | |]; simpl; try discriminate.
    intros e He [= ->]. now apply He.
  - intros H3. now rewrite verify_not_three_parts.
  - intros H3. split; [now apply verify_not_three_parts | now apply Hlex].
Qed.

End Results.

(** C7, as stated, fails: the scanner rejects ["ab!c.def.ghi"], and the
    verifier does not return the shape error for it: it goes on to decode
    the header, which fails. *)
Lemma rejected_token_is_decoded :
  Lexer.valid (Lexer.analyze "ab!c.def.ghi") = false /\
  Instance.verify_jwt_signature "ab!c.def.ghi" "secret"
    = invalid HeaderDecodeError /\
  error (Instance.verify_jwt_signature "ab!c.def.ghi" "secret")
    <> Some InvalidFormat.
Proof. repeat split. discriminate. Qed.

End VerifierFacts.

(** ** The encoder *)

Module EncoderFacts.
Import Encoder.

Section Parsers.
Context {pyfloat : Type}.
Variable float_of_str : str -> option pyfloat.

(** The loop of [parse_object] returns an object. *)
Lemma parse_object_loop_dict fuel :
  forall (obj : dict pyfloat) t v t',
    parse_object_loop float_of_str fuel obj t = Ok (v, t') ->
    exists d, v = VDict d.
Proof.
  induction fuel as [|fuel IH]; intros obj t v t'; simpl; [discriminate|].
  destruct (parse_string t) as [[key t1]|]; cbn [bind]; [|discriminate].
  destruct (after ":" (skip_ws t1)) as [t2|]; [|discriminate].
  destruct (parse_value float_of_str fuel t2) as [[val t3]|]; cbn [bind];
    [|discriminate].
  destruct (after "}" (skip_ws t3)) as [t4|].
  - intros [= <- _]. eauto.
  - destruct (after "," (skip_ws t3)) as [t4|]; [|discriminate].
    apply IH.
Qed.

Lemma object_loop_dict fuel :
  forall (rval : dict pyfloat) t v t',
    object_loop float_of_str fuel rval t = Ok (v, t') ->
    exists d, v = VDict d.
Proof.
  induction fuel as [|fuel IH]; intros rval t v t'; simpl; [discriminate|].
  destruct (after quote t) as [r|]; [|discriminate].
  destruct (scanstring r) as [[key t1]|]; cbn [bind]; [|discriminate].
  destruct (after ":" (skip_whitespace t1)) as [t2|]; [|discriminate].
  destruct (scan_once float_of_str fuel (skip_whitespace t2)) as [[val t3]|];
    cbn [bind]; [|discriminate].
  destruct (after "}" (skip_whitespace t3)) as [t4|].
  - intros [= <- _]. eauto.
  - destruct (after "," (skip_whitespace t3)) as [t4|]; [|discriminate].
    apply IH.
Qed.

Lemma parse_value_brace fuel r :
  parse_value float_of_str (S fuel) ("{"%char :: r) =
  match after "}" (skip_ws r) with
  | Some r' => Ok (VDict [], r')
  | None => parse_object_loop float_of_str fuel [] r
  end.
Proof. reflexivity. Qed.

Lemma scan_once_brace fuel r :
  scan_once float_of_str (S fuel) ("{"%char :: r) =
  match after "}" (skip_whitespace r) with
  | Some r' => Ok (VDict [], r')
  | None => object_loop float_of_str fuel [] (skip_whitespace r)
  end.
Proof. reflexivity. Qed.

(** A text that starts with a brace parses to an object or not at all. *)
Lemma parse_text_brace r v :
  Syntactic.parse_text float_of_str ("{"%char :: r) = Ok v ->
  exists d, v = VDict d.
Proof.
  unfold Syntactic.parse_text.
  destruct (parse_json_manual float_of_str ("{"%char :: r)) as [v'|e] eqn:E.
  - intros [= <-]. unfold parse_json_manual in E.
    rewrite parse_value_brace in E. revert E.
    destruct (after "}" (skip_ws r)) as [r'|]; cbn [bind].
    + destruct (skip_ws r'); [intros [= <-]; eauto | discriminate].
    + destruct (parse_object_loop _ _ _ _) as [[v0 t0]|] eqn:L;
        cbn [bind]; [|discriminate].
      apply parse_object_loop_dict in L as [d ->].
      destruct (skip_ws t0); [intros [= <-]; eauto | discriminate].
  - clear E. unfold json_loads.
    destruct (is_prefix BOM _); [discriminate|].
    change (skip_whitespace ("{"%char :: r)) with ("{"%char :: r).
    rewrite scan_once_brace.
    destruct (after "}" (skip_whitespace r)) as [r'|]; cbn [bind].
    + destruct (skip_whitespace r'); [intros [= <-]; eauto | discriminate].
    + destruct (object_loop _ _ _ _) as [[v0 t0]|] eqn:L;
        cbn [bind]; [|discriminate].
      apply object_loop_dict in L as [d ->].
      destruct (skip_whitespace t0); [intros [= <-]; eauto | discriminate].
Qed.

End Parsers.

Section Validation.
Context {pyfloat : Type}.
Variable float_of_str : str -> option pyfloat.
Variable float_repr : pyfloat -> str.

Lemma json_dumps_brace (d : dict pyfloat) :
  exists r, json_dumps float_repr (VDict d) = "{"%char :: r.
Proof. eexists. reflexivity. Qed.

(** On the serialized maps the structural phase raises nothing. *)
Lemma analyze_syntax_dumps (h p : dict pyfloat) :
  exists r,
    Syntactic.analyze_syntax float_of_str
      (json_dumps float_repr (VDict h)) (json_dumps float_repr (VDict p))
    = Ok r.
Proof.
  destruct (json_dumps_brace h) as [rh ->].
  destruct (json_dumps_brace p) as [rp ->].
  unfold Syntactic.analyze_syntax.
  destruct (Syntactic.parse_text float_of_str ("{"%char :: rh))
    as [vh|] eqn:Eh; [|eauto].
  destruct (Syntactic.parse_text float_of_str ("{"%char :: rp))
    as [vp|] eqn:Ep; [|eauto].
  apply parse_text_brace in Eh as [dh ->].
  apply parse_text_brace in Ep as [dp ->].
  rewrite SyntacticFacts.validations_dict. cbn [bind]. eauto.
Qed.

(** Writing a key and reading a key. *)
Lemma dict_get_set (d : dict pyfloat) k v k' :
  dict_get (dict_set d k v) k' =
  if str_eqb k' k then Some v else dict_get d k'.
Proof.
  induction d as [|[k0 v0] d IH]; cbn [dict_set dict_get]; [reflexivity|].
  destruct (str_eqb k k0) eqn:E; cbn [dict_get].
  - apply str_eqb_eq in E. subst k0. now destruct (str_eqb k' k).
  - rewrite IH. destruct (str_eqb k' k0) eqn:E0; [|reflexivity].
    destruct (str_eqb k' k) eqn:E1; [|reflexivity].
    apply str_eqb_eq in E0, E1. subst. now rewrite str_eqb_refl in E.
Qed.

(** The structural errors of a header do not look at the value of ['alg']. *)
Lemma header_errors_set_alg (hd : dict pyfloat) x :
  SyntacticFacts.header_errors (dict_set hd "alg" x) =
  match dict_get hd "typ" with
  | None => [Syntactic.MissingTyp]
  | Some typ => if eq_str typ "JWT" then [] else [Syntactic.TypNotJWT]
  end.
Proof.
  unfold SyntacticFacts.header_errors, dict_has. rewrite !dict_get_set.
  reflexivity.
Qed.

(** The errors of the payload and of ['typ'] are not about ['alg']. *)
Lemma payload_errors_not_alg (pd : dict pyfloat) :
  ~ In Syntactic.MissingAlg
      (SyntacticFacts.numeric_date_error pd "iat"
       ++ SyntacticFacts.numeric_date_error pd "exp"
       ++ SyntacticFacts.numeric_date_error pd "nbf"
       ++ SyntacticFacts.aud_error pd ++ SyntacticFacts.permissions_error pd).
Proof.
  unfold SyntacticFacts.numeric_date_error, SyntacticFacts.aud_error,
    SyntacticFacts.permissions_error.
  rewrite !in_app_iff.
  repeat match goal with
         | |- context [match ?x with _ => _ end] => destruct x
         end; cbn [In]; intuition discriminate.
Qed.

Lemma typ_errors_not_alg (hd : dict pyfloat) :
  ~ In Syntactic.MissingAlg
      match dict_get hd "typ" with
      | None => [Syntactic.MissingTyp]
      | Some typ => if eq_str typ "JWT" then [] else [Syntactic.TypNotJWT]
      end.
Proof.
  destruct (dict_get hd "typ") as [typ|]; [destruct (eq_str typ "JWT")|];
    cbn [In]; intuition discriminate.
Qed.

(** C8, as the code has it. Calling [encode_jwt] with a header whose ['alg']
    is outside [{HS256, HS384}] fails before the codec and the signer are
    reached, whatever the secret and the keyed hash. The structural phase
    returns a result [r] for the two serialized maps. When it has found a
    violation ([valid r] is false) the encoder raises the aggregate
    structural error. When it has found none, the encoder raises the error
    of the first header rule violated in the semantic phase, which is
    [InvalidValueError] for ['alg'] when ['alg'] and ['typ'] are Strings.
    The unsupported value is rejected by the semantic phase only: the
    structural phase checks that ['alg'] is present and accepts any value.
    On texts that parse to objects it reports the missing ['alg'] exactly
    when the header holds none; with ['alg'] set to any value its errors
    are the others, the same for every value, and none when ['typ'] is
    ["JWT"] and the payload is empty. *)
Theorem encode_unsupported_algorithm (h p : dict pyfloat) (t_actual : Z) :
  (forall a, dict_get h "alg" = Some (VStr a) ->
     a <> ("HS256" : str) /\ a <> ("HS384" : str)) ->
  (exists r,
     Syntactic.analyze_syntax float_of_str
       (json_dumps float_repr (VDict h)) (json_dumps float_repr (VDict p))
     = Ok r /\
     (Syntactic.valid r = false ->
      forall hmac secret,
        encode_jwt float_of_str float_repr hmac h p secret t_actual
        = Raise SyntaxValidationError) /\
     (Syntactic.valid r = true ->
      exists e,
        Semantic.validate_header h = Raise e /\
        (forall hmac secret,
           encode_jwt float_of_str float_repr hmac h p secret t_actual
           = Raise e) /\
        (forall a t, dict_get h "alg" = Some (VStr a) ->
           dict_get h "typ" = Some (VStr t) ->
           e = InvalidValueError "alg"))) /\
  (forall header_str payload_str (hd pd : dict pyfloat),
     Syntactic.parse_text float_of_str header_str = Ok (VDict hd) ->
     Syntactic.parse_text float_of_str payload_str = Ok (VDict pd) ->
     exists r,
       Syntactic.analyze_syntax float_of_str header_str payload_str = Ok r /\
       (In Syntactic.MissingAlg (Syntactic.errors r) <->
        dict_get hd "alg" = None) /\
       forall header_str' (x : value pyfloat),
         Syntactic.parse_text float_of_str header_str'
         = Ok (VDict (dict_set hd "alg" x)) ->
         exists r',
           Syntactic.analyze_syntax float_of_str header_str' payload_str
           = Ok r' /\
           ~ In Syntactic.MissingAlg (Syntactic.errors r') /\
           Syntactic.errors r' =
             filter (fun e => match e with
                              | Syntactic.MissingAlg => false
                              | _ => true
                              end) (Syntactic.errors r) /\
           (dict_get hd "alg" <> None ->
            Syntactic.valid r' = Syntactic.valid r)) /\
  (forall header_str payload_str (x : value pyfloat),
     Syntactic.parse_text float_of_str header_str
     = Ok (VDict [("alg" : str, x); ("typ" : str, VStr "JWT")]) ->
     Syntactic.parse_text float_of_str payload_str = Ok (VDict []) ->
     Syntactic.analyze_syntax float_of_str header_str payload_str =
     Ok {| Syntactic.success := true; Syntactic.valid := true;
           Syntactic.header :=
             VDict [("alg" : str, x); ("typ" : str, VStr "JWT")];
           Syntactic.payload := VDict [];
           Syntactic.errors := [] |}).
Proof.
  intros Halg. split; [|split].
  - destruct (Semantic.validate_header h) as [[]|e0] eqn:Ev.
    { apply SemanticFacts.validate_header_ok in Ev as [(a & Ha & Hs) _].
      apply Halg in Ha. tauto. }
    destruct (analyze_syntax_dumps h p) as [r Hr].
    exists r. split; [exact Hr|]. split.
    + intros Hv hmac secret. unfold encode_jwt. rewrite Hr. cbn [bind].
      now rewrite Hv.
    + intros Hv. exists e0. split; [reflexivity|]. split.
      * intros hmac secret. unfold encode_jwt. rewrite Hr. cbn [bind].
        rewrite Hv. cbn [negb]. unfold Semantic.analyze. now rewrite Ev.
      * intros a t Ha Ht.
        rewrite SemanticFacts.validate_header_rules, Ha, Ht in Ev.
        cbn [isinstance_str negb] in Ev.
        destruct (Semantic.supported (VStr a)) eqn:Es; cbn [negb] in Ev;
          [|congruence].
        exfalso. destruct (Halg a Ha) as [H1 H2].
        unfold Semantic.supported, Semantic.supported_algorithms in Es.
        cbn [existsb eq_str] in Es.
        rewrite orb_false_r, orb_true_iff, !str_eqb_eq in Es. tauto.
  - intros header_str payload_str hd pd Hh Hp.
    pose proof (payload_errors_not_alg pd) as Np.
    pose proof (typ_errors_not_alg hd) as Nt.
    unfold Syntactic.analyze_syntax at 1.
    rewrite Hh, Hp, SyntacticFacts.validations_dict. cbn [bind].
    eexists. split; [reflexivity|]. cbn [Syntactic.errors Syntactic.valid].
    split.
    + rewrite in_app_iff. unfold SyntacticFacts.header_errors at 1.
      rewrite in_app_iff. unfold dict_has.
      destruct (dict_get hd "alg"); cbn [In]; split;
        first [discriminate | tauto | (intros _; left; left; now left)].
    + intros header_str' x Hh'. unfold Syntactic.analyze_syntax.
      rewrite Hh', Hp, SyntacticFacts.validations_dict, header_errors_set_alg.
      cbn [bind]. eexists. split; [reflexivity|].
      cbn [Syntactic.errors Syntactic.valid].
      assert (F : forall l, ~ In Syntactic.MissingAlg l ->
                filter (fun e => match e with
                                 | Syntactic.MissingAlg => false
                                 | _ => true
                                 end) l = l).
      { induction l as [|e l IH]; [reflexivity|]. cbn [In filter]. intros H.
        destruct e; try (rewrite IH by tauto; reflexivity). tauto. }
      split; [rewrite in_app_iff; tauto|]. split.
      * unfold SyntacticFacts.header_errors, dict_has.
        rewrite filter_app, (F _ Np), filter_app, (F _ Nt).
        now destruct (dict_get hd "alg").
      * intros Ha. unfold SyntacticFacts.header_errors, dict_has.
        destruct (dict_get hd "alg"); [reflexivity|contradiction].
  - intros header_str payload_str x Hh Hp. unfold Syntactic.analyze_syntax.
    now rewrite Hh, Hp, SyntacticFacts.validations_dict.
Qed.

End Validation.

(** C8, as stated, fails: the structural phase accepts a header whose
    ['alg'] is ["RS256"]. *)
Lemma structural_phase_accepts_RS256 :
  Instance.analyze_syntax (dq "{'alg':'RS256','typ':'JWT'}") (dq "{}") =
  Ok {| Syntactic.success := true; Syntactic.valid := true;
        Syntactic.header :=
          VDict [("alg" : str, VStr "RS256"); ("typ" : str, VStr "JWT")];
        Syntactic.payload := VDict [];
        Syntactic.errors := [] |}.
Proof. reflexivity. Qed.

(** The hypothesis of C8 holds of the header [{"alg":"RS256","typ":"JWT"}],
    in which the structural phase finds no violation and for which the
    encoder raises [InvalidValueError]. *)
Lemma encode_unsupported_algorithm_witness :
  let h : dict Instance.pyfloat :=
    [("alg" : str, VStr "RS256"); ("typ" : str, VStr "JWT")] in
  (forall a, dict_get h "alg" = Some (VStr a) ->
     a <> ("HS256" : str) /\ a <> ("HS384" : str)) /\
  (exists r,
     Instance.analyze_syntax
       (json_dumps Instance.float_repr (VDict h))
       (json_dumps Instance.float_repr (VDict [])) = Ok r /\
     (Syntactic.valid r = false ->
      forall hmac secret,
        encode_jwt Instance.float_of_str Instance.float_repr hmac h [] secret
          1700000000 = Raise SyntaxValidationError) /\
     (Syntactic.valid r = true ->
      exists e,
        Semantic.validate_header h = Raise e /\
        (forall hmac secret,
           encode_jwt Instance.float_of_str Instance.float_repr hmac h []
             secret 1700000000 = Raise e) /\
        (forall a t, dict_get h "alg" = Some (VStr a) ->
           dict_get h "typ" = Some (VStr t) ->
           e = InvalidValueError "alg"))) /\
  Syntactic.valid
    (match Instance.analyze_syntax
             (json_dumps Instance.float_repr (VDict h))
             (json_dumps Instance.float_repr (VDict [])) with
     | Ok r => r
     | Raise _ => {| Syntactic.success := true; Syntactic.valid := false;
                     Syntactic.header := VNone; Syntactic.payload := VNone;
                     Syntactic.errors := [] |}
     end) = true.
Proof.
  cbv zeta.
  assert (H : forall a : str,
            dict_get (pyfloat := Instance.pyfloat)
              [("alg" : str, VStr "RS256"); ("typ" : str, VStr "JWT")] "alg"
            = Some (VStr a) ->
            a <> ("HS256" : str) /\ a <> ("HS384" : str)).
  { intros a [= <-]. split; discriminate. }
  split; [exact H|]. split; [|reflexivity].
  exact (proj1 (encode_unsupported_algorithm Instance.float_of_str
                  Instance.float_repr _ [] 1700000000 H)).
Defined.

Example encode_RS256 :
  Instance.encode_jwt
    [("alg" : str, VStr "RS256"); ("typ" : str, VStr "JWT")] [] "secret"
    1700000000 = Raise (InvalidValueError "alg").
Proof. reflexivity. Qed.

(** With ['typ'] other than ["JWT"] beside the unsupported ['alg'], the
    structural phase finds the violation of ['typ'] and the encoder raises
    the structural error: the semantic phase is not reached. *)
Example encode_RS256_JWX :
  Instance.encode_jwt
    [("alg" : str, VStr "RS256"); ("typ" : str, VStr "JWX")] [] "secret"
    1700000000 = Raise SyntaxValidationError /\
  Semantic.validate_header (pyfloat := Instance.pyfloat)
    [("alg" : str, VStr "RS256"); ("typ" : str, VStr "JWX")]
  = Raise (InvalidValueError "alg").
Proof. split; reflexivity. Qed.

End EncoderFacts.

(** ** Bytes and code points *)

Module Utf8Facts.
Import Utf8.

Lemma byte_val_range b : (0 <= byte_val b < 256)%Z.
Proof.
  unfold byte_val. pose proof (nat_ascii_bounded b). lia.
Qed.

Lemma byte_of_val b : byte_of (byte_val b) = b.
Proof.
  unfold byte_of, byte_val. rewrite <- nat_N_Z, N2Z.id.
  apply ascii_nat_embedding.
Qed.

Lemma byte_val_of z : (0 <= z < 256)%Z -> byte_val (byte_of z) = z.
Proof.
  intros H. unfold byte_of, byte_val, nat_of_ascii.
  rewrite N_ascii_embedding by lia. lia.
Qed.

Lemma in_range_spec lo hi c :
  in_range lo hi c = true <-> (Z.of_nat lo <= byte_val c <= Z.of_nat hi)%Z.
Proof.
  unfold in_range, byte_val.
  rewrite andb_true_iff, !Nat.leb_le. lia.
Qed.

Lemma in_range_false lo hi c :
  in_range lo hi c = false <->
  (byte_val c < Z.of_nat lo \/ Z.of_nat hi < byte_val c)%Z.
Proof.
  unfold in_range, byte_val.
  rewrite andb_false_iff, !Nat.leb_gt. lia.
Qed.

Lemma byte_val_inj a b : byte_val a = byte_val b -> a = b.
Proof.
  intros H. rewrite <- (byte_of_val a), <- (byte_of_val b). now f_equal.
Qed.

(** The characters that [chr] gives back. *)
Lemma chr_ascii b : is_ascii b = true -> chr (byte_val b) = [b].
Proof.
  intros H. apply in_range_spec in H. unfold chr.
  destruct (Z.ltb_spec (byte_val b) 128); [|lia].
  now rewrite byte_of_val.
Qed.

Lemma chr_cp2 b0 b1 :
  in_range 194 223 b0 = true -> cont b1 = true ->
  (128 <= cp2 b0 b1 < 2048)%Z /\ chr (cp2 b0 b1) = [b0; b1].
Proof.
  unfold cont. rewrite !in_range_spec. intros H0 H1. unfold cp2, chr.
  set (v0 := byte_val b0) in *. set (v1 := byte_val b1) in *.
  split; [lia|].
  destruct (Z.ltb_spec ((v0 - 192) * 64 + (v1 - 128)) 128); [lia|].
  destruct (Z.ltb_spec ((v0 - 192) * 64 + (v1 - 128)) 2048); [|lia].
  replace (192 + ((v0 - 192) * 64 + (v1 - 128)) / 64)%Z with v0
    by (Z.div_mod_to_equations; lia).
  replace (128 + ((v0 - 192) * 64 + (v1 - 128)) mod 64)%Z with v1
    by (Z.div_mod_to_equations; lia).
  unfold v0, v1. now rewrite !byte_of_val.
Qed.

Lemma chr_cp3 b0 b1 b2 :
  in_range 224 239 b0 = true -> cont b1 = true -> cont b2 = true ->
  (in_range 224 224 b0 = true -> in_range 160 191 b1 = true) ->
  (2048 <= cp3 b0 b1 b2 < 65536)%Z /\ chr (cp3 b0 b1 b2) = [b0; b1; b2].
Proof.
  unfold cont. rewrite !in_range_spec. intros H0 H1 H2 H3. unfold cp3, chr.
  set (v0 := byte_val b0) in *. set (v1 := byte_val b1) in *.
  set (v2 := byte_val b2) in *.
  set (n := ((v0 - 224) * 4096 + (v1 - 128) * 64 + (v2 - 128))%Z).
  assert (Hn : (2048 <= n < 65536)%Z) by (unfold n; lia).
  split; [exact Hn|].
  destruct (Z.ltb_spec n 128); [lia|].
  destruct (Z.ltb_spec n 2048); [lia|].
  destruct (Z.ltb_spec n 65536); [|lia].
  replace (224 + n / 4096)%Z with v0
    by (unfold n; Z.div_mod_to_equations; lia).
  replace (128 + (n / 64) mod 64)%Z with v1
    by (unfold n; Z.div_mod_to_equations; lia).
  replace (128 + n mod 64)%Z with v2
    by (unfold n; Z.div_mod_to_equations; lia).
  unfold v0, v1, v2. now rewrite !byte_of_val.
Qed.

Lemma chr_cp4 b0 b1 b2 b3 :
  in_range 240 244 b0 = true -> cont b1 = true -> cont b2 = true ->
  cont b3 = true ->
  (in_range 240 240 b0 = true -> in_range 144 191 b1 = true) ->
  (in_range 244 244 b0 = true -> in_range 128 143 b1 = true) ->
  (65536 <= cp4 b0 b1 b2 b3 < 1114112)%Z /\
  chr (cp4 b0 b1 b2 b3) = [b0; b1; b2; b3].
Proof.
  unfold cont. rewrite !in_range_spec. intros H0 H1 H2 H3 H4 H5.
  unfold cp4, chr.
  set (v0 := byte_val b0) in *. set (v1 := byte_val b1) in *.
  set (v2 := byte_val b2) in *. set (v3 := byte_val b3) in *.
  set (n := ((v0 - 240) * 262144 + (v1 - 128) * 4096 + (v2 - 128) * 64
             + (v3 - 128))%Z).
  assert (Hn : (65536 <= n < 1114112)%Z) by (unfold n; lia).
  split; [exact Hn|].
  destruct (Z.ltb_spec n 128); [lia|].
  destruct (Z.ltb_spec n 2048); [lia|].
  destruct (Z.ltb_spec n 65536); [lia|].
  replace (240 + n / 262144)%Z with v0
    by (unfold n; Z.div_mod_to_equations; lia).
  replace (128 + (n / 4096) mod 64)%Z with v1
    by (unfold n; Z.div_mod_to_equations; lia).
  replace (128 + (n / 64) mod 64)%Z with v2
    by (unfold n; Z.div_mod_to_equations; lia).
  replace (128 + n mod 64)%Z with v3
    by (unfold n; Z.div_mod_to_equations; lia).
  unfold v0, v1, v2, v3. now rewrite !byte_of_val.
Qed.

End Utf8Facts.

(** ** The strings of [json] *)

Module JsonStringFacts.
Import Utf8 Utf8Facts.

Lemma hex_digit_value_digit v :
  (0 <= v < 16)%Z -> hex_digit_value (hex_digit v) = Some v.
Proof.
  intros H.
  assert (E : (v = 0 \/ v = 1 \/ v = 2 \/ v = 3 \/ v = 4 \/ v = 5 \/ v = 6
               \/ v = 7 \/ v = 8 \/ v = 9 \/ v = 10 \/ v = 11 \/ v = 12
               \/ v = 13 \/ v = 14 \/ v = 15)%Z) by lia.
  repeat (destruct E as [-> | E]; [reflexivity|]). now subst.
Qed.

Lemma hex4_value_escape n :
  (0 <= n < 65536)%Z ->
  hex4_value (hex_digit (n / 4096)) (hex_digit ((n / 256) mod 16))
             (hex_digit ((n / 16) mod 16)) (hex_digit (n mod 16)) = Some n.
Proof.
  intros H. unfold hex4_value.
  rewrite !hex_digit_value_digit by (Z.div_mod_to_equations; lia).
  f_equal. Z.div_mod_to_equations. lia.
Qed.

(** Reading an escape [\uXXXX] that is no high surrogate. *)
Lemma scanstring_u_escape n X :
  (0 <= n < 65536)%Z -> is_high_surrogate n = false ->
  scanstring (u_escape n ++ X) = prepend (chr n) (scanstring X).
Proof.
  intros Hn Hs. unfold u_escape. cbn [app scanstring].
  change (Ascii.eqb backslash quote) with false.
  change (Ascii.eqb backslash backslash) with true.
  change (Ascii.eqb "u" "u") with true. cbv iota.
  rewrite hex4_value_escape by exact Hn. now rewrite Hs.
Qed.

(** Reading the two escapes of a character above [0xFFFF]. *)
Lemma scanstring_surrogate_pair n X :
  (65536 <= n < 1114112)%Z ->
  scanstring (u_escape (55296 + (n - 65536) / 1024)
              ++ u_escape (56320 + (n - 65536) mod 1024) ++ X)
  = prepend (chr n) (scanstring X).
Proof.
  intros Hn.
  set (hi := (55296 + (n - 65536) / 1024)%Z).
  set (lo := (56320 + (n - 65536) mod 1024)%Z).
  assert (Hhi : (55296 <= hi <= 56319)%Z)
    by (unfold hi; Z.div_mod_to_equations; lia).
  assert (Hlo : (56320 <= lo <= 57343)%Z)
    by (unfold lo; Z.div_mod_to_equations; lia).
  unfold u_escape at 1. cbn [app scanstring].
  change (Ascii.eqb backslash quote) with false.
  change (Ascii.eqb backslash backslash) with true.
  change (Ascii.eqb "u" "u") with true. cbv iota.
  rewrite hex4_value_escape by lia.
  replace (is_high_surrogate hi) with true
    by (unfold is_high_surrogate; lia).
  unfold u_escape. cbn [app].
  change (Ascii.eqb backslash backslash) with true.
  change (Ascii.eqb "u" "u") with true. cbn [andb].
  rewrite hex4_value_escape by lia.
  replace (is_low_surrogate lo) with true by (unfold is_low_surrogate; lia).
  replace (join_surrogates hi lo) with n; [reflexivity|].
  unfold join_surrogates, hi, lo. Z.div_mod_to_equations. lia.
Qed.

(** Reading what [encode_basestring_ascii] writes for one character. *)
Lemma scanstring_escape_char n X :
  (0 <= n < 1114112)%Z -> is_high_surrogate n = false ->
  scanstring (escape_char n ++ X) = prepend (chr n) (scanstring X).
Proof.
  intros Hn Hs. unfold escape_char.
  destruct (Z.eqb_spec n 34) as [->|N34]; [reflexivity|].
  destruct (Z.eqb_spec n 92) as [->|N92]; [reflexivity|].
  destruct (Z.eqb_spec n 8) as [->|N8]; [reflexivity|].
  destruct (Z.eqb_spec n 12) as [->|N12]; [reflexivity|].
  destruct (Z.eqb_spec n 10) as [->|N10]; [reflexivity|].
  destruct (Z.eqb_spec n 13) as [->|N13]; [reflexivity|].
  destruct (Z.eqb_spec n 9) as [->|N9]; [reflexivity|].
  destruct (Z.leb_spec 32 n); cbn [andb].
  - destruct (Z.leb_spec n 126).
    + cbn [app scanstring].
      destruct (Ascii.eqb_spec (byte_of n) quote) as [E|_].
      { apply (f_equal byte_val) in E. rewrite byte_val_of in E by lia.
        now contradiction N34. }
      destruct (Ascii.eqb_spec (byte_of n) backslash) as [E|_].
      { apply (f_equal byte_val) in E. rewrite byte_val_of in E by lia.
        now contradiction N92. }
      rewrite byte_val_of by lia.
      destruct (Z.leb_spec n 31); [lia|].
      unfold chr. destruct (Z.ltb_spec n 128); [reflexivity | lia].
    + destruct (Z.ltb_spec n 65536).
      * apply scanstring_u_escape; [lia | exact Hs].
      * rewrite <- app_assoc. apply scanstring_surrogate_pair. lia.
  - destruct (Z.ltb_spec n 65536); [|lia].
    apply scanstring_u_escape; [lia | exact Hs].
Qed.

(** Induction on well-formed UTF-8, one character at a time. *)
Lemma utf8_valid_ind (P : str -> Prop) :
  P [] ->
  (forall b0 r, is_ascii b0 = true -> P r -> P (b0 :: r)) ->
  (forall b0 b1 r,
     in_range 194 223 b0 = true -> cont b1 = true ->
     P r -> P (b0 :: b1 :: r)) ->
  (forall b0 b1 b2 r,
     in_range 224 239 b0 = true -> cont b1 = true -> cont b2 = true ->
     (in_range 224 224 b0 = true -> in_range 160 191 b1 = true) ->
     (in_range 237 237 b0 = true -> in_range 128 159 b1 = true) ->
     P r -> P (b0 :: b1 :: b2 :: r)) ->
  (forall b0 b1 b2 b3 r,
     in_range 240 244 b0 = true -> cont b1 = true -> cont b2 = true ->
     cont b3 = true ->
     (in_range 240 240 b0 = true -> in_range 144 191 b1 = true) ->
     (in_range 244 244 b0 = true -> in_range 128 143 b1 = true) ->
     P r -> P (b0 :: b1 :: b2 :: b3 :: r)) ->
  forall s, utf8_valid s = true -> P s.
Proof.
  intros H0 H1 H2 H3 H4 s.
  remember (length s) as n eqn:Hlen. revert s Hlen.
  induction n as [n IH] using lt_wf_ind. intros s Hlen Hv.
  assert (IH' : forall r, length r < length s -> utf8_valid r = true -> P r).
  { intros r Hr. apply (IH (length r)); [lia | reflexivity]. }
  clear IH Hlen n.
  destruct s as [|b0 r0]; [exact H0|]. cbn [utf8_valid] in Hv.
  destruct (is_ascii b0) eqn:A0.
  { apply H1; [exact A0|]. apply IH'; [simpl; lia | exact Hv]. }
  destruct r0 as [|b1 r1]; [discriminate|].
  destruct (in_range 194 223 b0) eqn:A1.
  { apply andb_true_iff in Hv as [C1 Hv].
    apply H2; auto. apply IH'; [simpl; lia | exact Hv]. }
  destruct r1 as [|b2 r2]; [discriminate|].
  destruct (in_range 224 239 b0) eqn:A2.
  { apply andb_true_iff in Hv as [Hv Hr].
    apply andb_true_iff in Hv as [C1 C2].
    assert (K : cont b1 = true /\
                (in_range 224 224 b0 = true -> in_range 160 191 b1 = true) /\
                (in_range 237 237 b0 = true -> in_range 128 159 b1 = true)).
    { destruct (in_range 224 224 b0) eqn:B0.
      - apply in_range_spec in B0, C1. unfold cont.
        rewrite !in_range_spec. repeat split; lia.
      - destruct (in_range 237 237 b0) eqn:B1.
        + apply in_range_spec in C1. unfold cont.
          rewrite !in_range_spec. repeat split; intros; try lia;
            try discriminate.
        + repeat split; auto; discriminate. }
    destruct K as (K1 & K2 & K3).
    apply H3; auto. apply IH'; [simpl; lia | exact Hr]. }
  destruct r2 as [|b3 r3]; [discriminate|].
  apply andb_true_iff in Hv as [Hv Hr].
  apply andb_true_iff in Hv as [Hv C3].
  apply andb_true_iff in Hv as [Hv C2].
  apply andb_true_iff in Hv as [A3 C1].
  assert (K : cont b1 = true /\
              (in_range 240 240 b0 = true -> in_range 144 191 b1 = true) /\
              (in_range 244 244 b0 = true -> in_range 128 143 b1 = true)).
  { destruct (in_range 240 240 b0) eqn:B0.
    - apply in_range_spec in B0, C1. unfold cont.
      rewrite !in_range_spec. repeat split; lia.
    - destruct (in_range 244 244 b0) eqn:B1.
      + apply in_range_spec in C1. unfold cont.
        rewrite !in_range_spec. repeat split; intros; try lia;
          try discriminate.
      + repeat split; auto; discriminate. }
  destruct K as (K1 & K2 & K3).
  apply H4; auto. apply IH'; [simpl; lia | exact Hr].
Qed.

(** [escape_ascii] on each form of character. *)
Lemma escape_ascii_1 b0 r :
  is_ascii b0 = true ->
  escape_ascii (b0 :: r) = escape_char (byte_val b0) ++ escape_ascii r.
Proof. intros H. cbn [escape_ascii]. now rewrite H. Qed.

Lemma escape_ascii_2 b0 b1 r :
  in_range 194 223 b0 = true -> cont b1 = true ->
  escape_ascii (b0 :: b1 :: r) = escape_char (cp2 b0 b1) ++ escape_ascii r.
Proof.
  intros H0 H1. cbn [escape_ascii].
  replace (is_ascii b0) with false
    by (symmetry; apply in_range_false; apply in_range_spec in H0; lia).
  replace (in_range 192 223 b0) with true
    by (symmetry; apply in_range_spec; apply in_range_spec in H0; lia).
  now rewrite H1.
Qed.

Lemma escape_ascii_3 b0 b1 b2 r :
  in_range 224 239 b0 = true -> cont b1 = true -> cont b2 = true ->
  escape_ascii (b0 :: b1 :: b2 :: r)
  = escape_char (cp3 b0 b1 b2) ++ escape_ascii r.
Proof.
  intros H0 H1 H2. cbn [escape_ascii].
  replace (is_ascii b0) with false
    by (symmetry; apply in_range_false; apply in_range_spec in H0; lia).
  replace (in_range 192 223 b0) with false
    by (symmetry; apply in_range_false; apply in_range_spec in H0; lia).
  now rewrite H0, H1, H2.
Qed.

Lemma escape_ascii_4 b0 b1 b2 b3 r :
  in_range 240 244 b0 = true -> cont b1 = true -> cont b2 = true ->
  cont b3 = true ->
  escape_ascii (b0 :: b1 :: b2 :: b3 :: r)
  = escape_char (cp4 b0 b1 b2 b3) ++ escape_ascii r.
Proof.
  intros H0 H1 H2 H3. cbn [escape_ascii].
  replace (is_ascii b0) with false
    by (symmetry; apply in_range_false; apply in_range_spec in H0; lia).
  replace (in_range 192 223 b0) with false
    by (symmetry; apply in_range_false; apply in_range_spec in H0; lia).
  replace (in_range 224 239 b0) with false
    by (symmetry; apply in_range_false; apply in_range_spec in H0; lia).
  replace (in_range 240 247 b0) with true
    by (symmetry; apply in_range_spec; apply in_range_spec in H0; lia).
  now rewrite H1, H2, H3.
Qed.

(** [scanstring] reads back the string that [encode_basestring_ascii] has
    written, up to the closing quote. *)
Lemma scanstring_escape_ascii s :
  utf8_valid s = true ->
  forall X, scanstring (escape_ascii s ++ quote :: X) = Ok (s, X).
Proof.
  intros Hv.
  apply (utf8_valid_ind
           (fun s => forall X, scanstring (escape_ascii s ++ quote :: X)
                               = Ok (s, X)));
    [ | intros b0 r A0 IH | intros b0 b1 r A0 C1 IH
      | intros b0 b1 b2 r A0 C1 C2 K1 K2 IH
      | intros b0 b1 b2 b3 r A0 C1 C2 C3 K1 K2 IH | exact Hv]; intros X.
  - reflexivity.
  - rewrite escape_ascii_1, <- app_assoc by exact A0.
    pose proof (byte_val_range b0). apply in_range_spec in A0 as A0'.
    rewrite scanstring_escape_char, IH
      by (lia || (unfold is_high_surrogate; lia)).
    cbn [prepend bind]. now rewrite (chr_ascii b0 A0).
  - rewrite escape_ascii_2, <- app_assoc by assumption.
    destruct (chr_cp2 b0 b1 A0 C1) as [Hn Hc].
    rewrite scanstring_escape_char, IH
      by (lia || (unfold is_high_surrogate; lia)).
    cbn [prepend bind]. now rewrite Hc.
  - rewrite escape_ascii_3, <- app_assoc by assumption.
    destruct (chr_cp3 b0 b1 b2 A0 C1 C2 K1) as [Hn Hc].
    assert (Hs : is_high_surrogate (cp3 b0 b1 b2) = false).
    { unfold is_high_surrogate, cp3. unfold cont in C1, C2.
      apply in_range_spec in A0, C1, C2.
      destruct (in_range 237 237 b0) eqn:B.
      - specialize (K2 eq_refl). apply in_range_spec in B, K2. lia.
      - apply in_range_false in B. lia. }
    rewrite scanstring_escape_char, IH by (lia || exact Hs).
    cbn [prepend bind]. now rewrite Hc.
  - rewrite escape_ascii_4, <- app_assoc by assumption.
    destruct (chr_cp4 b0 b1 b2 b3 A0 C1 C2 C3 K1 K2) as [Hn Hc].
    rewrite scanstring_escape_char, IH
      by (lia || (unfold is_high_surrogate; lia)).
    cbn [prepend bind]. now rewrite Hc.
Qed.

End JsonStringFacts.

(** ** The integers of [json] *)

Module JsonIntFacts.

(** The decimal numeral of a positive number has no leading zero. *)
Lemma to_uint_head p :
  match Pos.to_uint p with
  | Decimal.Nil | Decimal.D0 _ => False
  | _ => True
  end.
Proof.
  pose proof (DecimalPos.Unsigned.to_of (Pos.to_uint p)) as H.
  rewrite DecimalPos.Unsigned.of_to in H. simpl in H.
  destruct (Pos.to_uint p) as [|u| | | | | | | | |] eqn:E; try exact I.
  - now apply (DecimalPos.Unsigned.to_uint_nonnil p).
  - rewrite DecimalFacts.unorm_D0 in H.
    destruct (Decimal.uint_eq_dec u Decimal.Nil) as [->|Hu].
    + now apply (DecimalPos.Unsigned.to_uint_nonzero p).
    + pose proof (DecimalFacts.nb_digits_unorm u Hu) as L. rewrite <- H in L.
      simpl in L. lia.
Qed.

Lemma digits_of_uint d :
  Forall (fun c => digit c = true)
    (list_ascii_of_string (DecimalString.NilEmpty.string_of_uint d)).
Proof.
  induction d; simpl; constructor; auto.
Qed.

Lemma span_digits_app ds rest :
  Forall (fun c => digit c = true) ds -> delimited rest ->
  span_digits (ds ++ rest) = (ds, rest).
Proof.
  intros Hd Hr. induction Hd as [|c ds Hc _ IH]; simpl.
  - destruct rest as [|c r]; [reflexivity|].
    destruct Hr as [-> | [-> | ->]]; reflexivity.
  - now rewrite Hc, IH.
Qed.

(** The number that starts with a nonzero digit, after an optional sign. *)
Lemma match_number_digits (neg : bool) c ds rest :
  Utf8.in_range 49 57 c = true -> Forall (fun c => digit c = true) ds ->
  delimited rest ->
  let sign := if neg then ["-"%char] else [] in
  match_number (sign ++ c :: ds ++ rest) = Some (sign ++ c :: ds, false, rest).
Proof.
  intros Hc Hd Hr sign.
  assert (Hminus : Ascii.eqb c "-" = false).
  { destruct (Ascii.eqb_spec c "-") as [->|_]; [discriminate Hc|reflexivity]. }
  pose proof (span_digits_app ds rest Hd Hr) as Hspan.
  unfold match_number, sign.
  destruct neg; cbn -[span_digits Utf8.in_range digit]; rewrite ?Hminus;
    rewrite Hc, Hspan;
    (destruct rest as [|x r]; [|destruct Hr as [-> | [-> | ->]]]);
    cbn; now rewrite app_nil_r.
Qed.

Lemma match_number_zero rest :
  delimited rest -> match_number ("0"%char :: rest) = Some (["0"%char], false, rest).
Proof.
  intros Hr. destruct rest as [|x r]; [reflexivity|].
  destruct Hr as [-> | [-> | ->]]; reflexivity.
Qed.

(** The text of an integer: it is read back as a number, to its end. *)
Lemma match_number_int z rest :
  delimited rest ->
  match_number (str_of_int z ++ rest) = Some (str_of_int z, false, rest) /\
  int_of_str (str_of_int z) = Some z /\
  exists c r, str_of_int z = c :: r /\
    (digit c = true \/
     c = "-"%char /\ exists c' r', r = c' :: r' /\ digit c' = true).
Proof.
  intros Hr. split; [|split].
  - destruct z as [|p|p]; unfold str_of_int; cbn [Z.to_int].
    + now apply match_number_zero.
    + pose proof (to_uint_head p) as Hh. pose proof (digits_of_uint (Pos.to_uint p)) as Hd.
      unfold DecimalString.NilZero.string_of_int, DecimalString.NilZero.string_of_uint.
      destruct (Pos.to_uint p) as [|u|u|u|u|u|u|u|u|u|u]; try contradiction;
        cbn [DecimalString.NilEmpty.string_of_uint list_ascii_of_string] in *;
        inversion Hd; subst;
        now apply (match_number_digits false).
    + pose proof (to_uint_head p) as Hh. pose proof (digits_of_uint (Pos.to_uint p)) as Hd.
      unfold DecimalString.NilZero.string_of_int, DecimalString.NilZero.string_of_uint.
      destruct (Pos.to_uint p) as [|u|u|u|u|u|u|u|u|u|u]; try contradiction;
        cbn [DecimalString.NilEmpty.string_of_uint list_ascii_of_string] in *;
        inversion Hd; subst;
        now apply (match_number_digits true).
  - unfold int_of_str, str_of_int.
    rewrite string_of_list_ascii_of_string, DecimalString.NilZero.isi.
    + cbn [option_map]. now rewrite DecimalZ.of_to.
    + destruct z; discriminate || (cbn; intros [= E];
        now apply (DecimalPos.Unsigned.to_uint_nonnil p)).
    + destruct z; discriminate || (cbn; intros [= E];
        now apply (DecimalPos.Unsigned.to_uint_nonnil p)).
  - destruct z as [|p|p]; unfold str_of_int; cbn [Z.to_int].
    + exists "0"%char, []. split; [reflexivity | now left].
    + pose proof (digits_of_uint (Pos.to_uint p)) as Hd.
      pose proof (DecimalPos.Unsigned.to_uint_nonnil p) as Hn.
      unfold DecimalString.NilZero.string_of_int, DecimalString.NilZero.string_of_uint.
      destruct (Pos.to_uint p) as [|u|u|u|u|u|u|u|u|u|u]; try congruence;
        cbn [DecimalString.NilEmpty.string_of_uint list_ascii_of_string] in *;
        (eexists; eexists; split; [reflexivity | now left]).
    + pose proof (digits_of_uint (Pos.to_uint p)) as Hd.
      pose proof (DecimalPos.Unsigned.to_uint_nonnil p) as Hn.
      unfold DecimalString.NilZero.string_of_int, DecimalString.NilZero.string_of_uint.
      destruct (Pos.to_uint p) as [|u|u|u|u|u|u|u|u|u|u]; try congruence;
        cbn [DecimalString.NilEmpty.string_of_uint list_ascii_of_string] in *;
        (eexists; eexists; split; [reflexivity|]; right;
         split; [reflexivity|]; eexists; eexists; split; [reflexivity|];
         reflexivity).
Qed.

End JsonIntFacts.

(** ** The library [json]: reading back what was written *)

Module JsonFacts.
Import JsonStringFacts JsonIntFacts.

Section WellFormed.
Context {pyfloat : Type}.
Variable float_of_str : str -> option pyfloat.
Variable float_repr : pyfloat -> str.

Lemma wf_list l :
  wf_value float_of_str float_repr (VList l) <->
  Forall (wf_value float_of_str float_repr) l.
Proof.
  cbn [wf_value]. induction l as [|x r IH].
  - split; constructor.
  - rewrite IH. split.
    + intros [? ?]. now constructor.
    + now inversion 1.
Qed.

Lemma wf_dict d :
  wf_value float_of_str float_repr (VDict d) <->
  NoDup (map fst d) /\
  Forall (fun kv => Utf8.utf8_valid (fst kv) = true /\
                    wf_value float_of_str float_repr (snd kv)) d.
Proof.
  cbn [wf_value]. apply and_iff_compat_l. induction d as [|[k x] r IH].
  - split; constructor.
  - rewrite IH. split.
    + intros (? & ? & ?). now constructor.
    + inversion 1 as [|? ? [? ?] ?]; subst. auto.
Qed.

(** Induction on values, through lists and objects. *)
Lemma value_induction (P : value pyfloat -> Prop) :
  P VNone -> (forall b, P (VBool b)) -> (forall z, P (VInt z)) ->
  (forall f, P (VFloat f)) -> (forall s, P (VStr s)) ->
  (forall l, Forall P l -> P (VList l)) ->
  (forall d, Forall (fun kv => P (snd kv)) d -> P (VDict d)) ->
  forall v, P v.
Proof.
  intros HN HB HI HF HS HL HD.
  fix IH 1. intros [|b|z|f|s|l|d].
  - exact HN.
  - apply HB.
  - apply HI.
  - apply HF.
  - apply HS.
  - apply HL. induction l as [|x r IHl]; constructor; [apply IH | exact IHl].
  - apply HD. induction d as [|[k x] r IHd]; constructor; [apply IH | exact IHd].
Qed.


(** *** One step of the scanner *)

Lemma scan_once_S fuel c r :
  scan_once float_of_str (S fuel) (c :: r) =
  let t := c :: r in
  if Ascii.eqb c quote then
    do ' (s, t') <- scanstring r; Ok (VStr s, t')
  else if Ascii.eqb c "{" then
    match after "}" (skip_whitespace r) with
    | Some r' => Ok (VDict [], r')
    | None => object_loop float_of_str fuel [] (skip_whitespace r)
    end
  else if Ascii.eqb c "[" then
    match after "]" (skip_whitespace r) with
    | Some r' => Ok (VList [], r')
    | None => array_loop float_of_str fuel [] (skip_whitespace r)
    end
  else if is_prefix "null" t then Ok (VNone, skipn 4 t)
  else if is_prefix "true" t then Ok (VBool true, skipn 4 t)
  else if is_prefix "false" t then Ok (VBool false, skipn 5 t)
  else if is_prefix "NaN" t then parse_constant float_of_str "nan" (skipn 3 t)
  else if is_prefix "Infinity" t then parse_constant float_of_str "inf" (skipn 8 t)
  else if is_prefix "-Infinity" t then parse_constant float_of_str "-inf" (skipn 9 t)
  else
    match match_number t with
    | None => Raise JSONDecodeError
    | Some (numstr, true, rest) =>
        match float_of_str numstr with
        | Some f => Ok (VFloat f, rest)
        | None => Raise ValueError
        end
    | Some (numstr, false, rest) =>
        match int_of_str numstr with
        | Some z => Ok (VInt z, rest)
        | None => Raise ValueError
        end
    end.
Proof. reflexivity. Qed.

Lemma object_loop_S fuel rval t :
  object_loop float_of_str (S fuel) rval t =
  match after quote t with
  | Some r =>
      do ' (key, t1) <- scanstring r;
      match after ":" (skip_whitespace t1) with
      | Some t2 =>
          do ' (val, t3) <- scan_once float_of_str fuel (skip_whitespace t2);
          let rval := dict_set rval key val in
          match after "}" (skip_whitespace t3),
                after "," (skip_whitespace t3) with
          | Some t4, _ => Ok (VDict rval, t4)
          | None, Some t4 => object_loop float_of_str fuel rval (skip_whitespace t4)
          | None, None => Raise JSONDecodeError
          end
      | None => Raise JSONDecodeError
      end
  | None => Raise JSONDecodeError
  end.
Proof. reflexivity. Qed.

Lemma array_loop_S fuel rval t :
  array_loop float_of_str (S fuel) rval t =
  do ' (val, t1) <- scan_once float_of_str fuel t;
  let rval := rval ++ [val] in
  match after "]" (skip_whitespace t1), after "," (skip_whitespace t1) with
  | Some t2, _ => Ok (VList rval, t2)
  | None, Some t2 => array_loop float_of_str fuel rval (skip_whitespace t2)
  | None, None => Raise JSONDecodeError
  end.
Proof. reflexivity. Qed.

(** A text at which a value is read starts with a character that is no
    white space, no delimiter and not the first byte of the byte order
    mark. *)
Definition starts_value (t : str) : bool :=
  match t with
  | c :: _ => negb (char_in c ([" "; "009"; "010"; "013"; "]"; "}"; ","; "239"]%char))
  | [] => false
  end.

Lemma scan_once_first fuel t r :
  scan_once float_of_str fuel t = Ok r -> starts_value t = true.
Proof.
  destruct fuel as [|fuel]; [discriminate|].
  destruct t as [|c t]; [discriminate|]. intros H.
  unfold starts_value, char_in.
  destruct (existsb _ _) eqn:E; [exfalso|reflexivity].
  apply existsb_exists in E. destruct E as (x & Hx & E).
  apply Ascii.eqb_eq in E. subst x.
  cbn [In] in Hx.
  repeat (destruct Hx as [<- | Hx]; [cbv in H; discriminate H|]).
  exact Hx.
Qed.

Lemma starts_value_app t rest :
  starts_value t = true -> starts_value (t ++ rest) = true.
Proof. destruct t; [discriminate|exact (fun H => H)]. Qed.

Lemma starts_value_skip t :
  starts_value t = true -> skip_whitespace t = t.
Proof.
  destruct t as [|c t]; [reflexivity|].
  unfold starts_value, char_in, skip_whitespace, WHITESPACE, char_in.
  cbn [existsb]. intros H. apply negb_true_iff in H.
  repeat (apply orb_false_iff in H; destruct H as [? H]).
  fold skip_whitespace.
  repeat match goal with E : Ascii.eqb _ _ = false |- _ => rewrite E; clear E end.
  reflexivity.
Qed.

Lemma starts_value_bom t :
  starts_value t = true -> is_prefix BOM t = false.
Proof.
  destruct t as [|c t]; [reflexivity|].
  unfold starts_value, char_in. cbn [existsb is_prefix BOM]. intros H.
  apply negb_true_iff in H.
  repeat (apply orb_false_iff in H; destruct H as [? H]).
  rewrite Ascii.eqb_sym.
  repeat match goal with E : Ascii.eqb _ _ = false |- _ => rewrite ?E; clear E end.
  reflexivity.
Qed.

Lemma delimited_skip rest : delimited rest -> skip_whitespace rest = rest.
Proof.
  destruct rest as [|c r]; [reflexivity|].
  intros [-> | [-> | ->]]; reflexivity.
Qed.

(** *** Integers and strings *)

Lemma scan_once_int fuel z rest :
  delimited rest ->
  scan_once float_of_str (S fuel) (str_of_int z ++ rest) = Ok (VInt z, rest).
Proof.
  intros Hr.
  destruct (match_number_int z rest Hr) as (Hm & Hi & c & r & E & Hc).
  revert Hm. rewrite E. cbn [app]. intros Hm.
  rewrite scan_once_S. cbv zeta. rewrite Hm, <- E, Hi.
  assert (F : forall x, digit x = false -> x <> "-"%char -> Ascii.eqb c x = false).
  { intros x Hx Hn. destruct (Ascii.eqb_spec c x) as [->|_]; [|reflexivity].
    destruct Hc as [Hc | [Hc _]]; congruence. }
  assert (G : forall x, digit x = false -> x <> "-"%char -> Ascii.eqb x c = false).
  { intros x Hx Hn. rewrite Ascii.eqb_sym. now apply F. }
  rewrite !F by (reflexivity || discriminate).
  cbn [is_prefix list_ascii_of_string].
  rewrite !G by (reflexivity || discriminate).
  cbn [andb].
  destruct Hc as [Hc | (-> & c' & r' & -> & Hc)].
  - assert (Ascii.eqb "-" c = false) as ->.
    { destruct (Ascii.eqb_spec "-" c) as [<-|_]; [discriminate Hc|reflexivity]. }
    reflexivity.
  - cbn [app is_prefix].
    assert (Ascii.eqb "I" c' = false) as ->.
    { destruct (Ascii.eqb_spec "I" c') as [<-|_]; [discriminate Hc|reflexivity]. }
    reflexivity.
Qed.

Lemma scan_once_str fuel s rest :
  Utf8.utf8_valid s = true ->
  scan_once float_of_str (S fuel) (encode_basestring_ascii s ++ rest)
  = Ok (VStr s, rest).
Proof.
  intros Hs. unfold encode_basestring_ascii. cbn [app].
  rewrite <- app_assoc. cbn [app].
  rewrite scan_once_S. cbv zeta.
  replace (Ascii.eqb quote quote) with true by reflexivity.
  now rewrite scanstring_escape_ascii.
Qed.

(** *** Arrays and objects *)

Lemma join_cons2 sep (p q : str) ps :
  join sep (p :: q :: ps) = p ++ sep ++ join sep (q :: ps).
Proof. reflexivity. Qed.

Lemma dict_set_fresh (acc : dict pyfloat) k v :
  ~ In k (map fst acc) -> dict_set acc k v = acc ++ [(k, v)].
Proof.
  induction acc as [|[k' v'] acc IH]; cbn [map fst In dict_set app]; intros H.
  - reflexivity.
  - destruct (str_eqb k k') eqn:E.
    + apply str_eqb_eq in E. subst. tauto.
    + rewrite IH by tauto. reflexivity.
Qed.

#[local] Abbreviation dumps := (json_dumps float_repr).

(** A value is read back from the text written for it, up to what follows. *)
Definition reads_back (v : value pyfloat) : Prop :=
  forall fuel rest, delimited rest -> length (dumps v) < fuel ->
    scan_once float_of_str fuel (dumps v ++ rest) = Ok (v, rest).

Definition entry (kv : str * value pyfloat) : str :=
  let '(k, x) := kv in encode_basestring_ascii k ++ ":" ++ dumps x.

Lemma entry_app k x rest :
  entry (k, x) ++ rest =
  quote :: escape_ascii k ++ quote :: ":"%char :: dumps x ++ rest.
Proof.
  unfold entry, encode_basestring_ascii. cbn [app list_ascii_of_string].
  rewrite <- !app_assoc. reflexivity.
Qed.

Lemma json_dumps_list l :
  dumps (VList l) = "["%char :: join [","%char] (map dumps l) ++ ["]"%char].
Proof. reflexivity. Qed.

Lemma json_dumps_dict d :
  dumps (VDict d) = "{"%char :: join [","%char] (map entry d) ++ ["}"%char].
Proof. reflexivity. Qed.

Lemma array_loop_dumps l :
  l <> [] -> Forall reads_back l ->
  forall fuel acc rest,
    length (join [","%char] (map dumps l)) + 1 < fuel ->
    starts_value (join [","%char] (map dumps l) ++ "]"%char :: rest) = true /\
    array_loop float_of_str fuel acc
      (join [","%char] (map dumps l) ++ "]"%char :: rest)
    = Ok (VList (acc ++ l), rest).
Proof.
  intros Hne Hl. induction Hl as [|x l Hx Hl IH]; [congruence|]. clear Hne.
  intros fuel acc rest Hf.
  destruct fuel as [|fuel]; [lia|]. rewrite array_loop_S.
  destruct l as [|y l].
  - cbn [map join] in *.
    assert (E : scan_once float_of_str fuel (dumps x ++ "]"%char :: rest)
                = Ok (x, "]"%char :: rest)).
    { apply Hx; [cbn; auto | lia]. }
    split; [exact (scan_once_first _ _ _ E)|].
    rewrite E. reflexivity.
  - rewrite !map_cons, join_cons2 in *. rewrite <- !map_cons in *.
    rewrite !length_app in Hf. cbn [length] in Hf.
    rewrite <- !app_assoc. cbn [app].
    assert (E : scan_once float_of_str fuel
                  (dumps x ++ ","%char :: join [","%char] (map dumps (y :: l))
                             ++ "]"%char :: rest)
                = Ok (x, ","%char :: join [","%char] (map dumps (y :: l))
                             ++ "]"%char :: rest)).
    { apply Hx; [cbn; auto | lia]. }
    split; [exact (scan_once_first _ _ _ E)|].
    rewrite E. cbn [bind]. cbv zeta.
    destruct (IH ltac:(discriminate) fuel (acc ++ [x]) rest ltac:(lia)) as [Hs Hr].
    replace (skip_whitespace (","%char :: _)) with
      (","%char :: join [","%char] (map dumps (y :: l)) ++ "]"%char :: rest)
      by reflexivity.
    cbn [after]. replace (Ascii.eqb "," "]") with false by reflexivity.
    replace (Ascii.eqb "," ",") with true by reflexivity.
    rewrite (starts_value_skip _ Hs), Hr, <- app_assoc. reflexivity.
Qed.

Lemma object_loop_dumps d :
  d <> [] -> Forall (fun kv => reads_back (snd kv)) d ->
  Forall (fun kv => Utf8.utf8_valid (fst kv) = true) d ->
  forall fuel acc rest,
    NoDup (map fst (acc ++ d)) ->
    length (join [","%char] (map entry d)) + 1 < fuel ->
    object_loop float_of_str fuel acc
      (join [","%char] (map entry d) ++ "}"%char :: rest)
    = Ok (VDict (acc ++ d), rest).
Proof.
  intros Hne Hd. induction Hd as [|[k x] d Hx Hd IH]; [congruence|]. clear Hne.
  intros Hk fuel acc rest Hn Hf. inversion Hk as [|? ? Hk1 Hk2]; subst.
  cbn [fst snd] in *.
  assert (Hfresh : ~ In k (map fst acc)).
  { rewrite map_app in Hn. cbn [map fst] in Hn.
    apply NoDup_remove_2 in Hn. intros H. apply Hn, in_or_app. now left. }
  destruct fuel as [|fuel]; [lia|]. rewrite object_loop_S.
  assert (Step : forall REST, delimited REST ->
            length (dumps x) < fuel ->
            scan_once float_of_str fuel (dumps x ++ REST) = Ok (x, REST) /\
            skip_whitespace (dumps x ++ REST) = dumps x ++ REST).
  { intros REST HR HL. split.
    - now apply Hx.
    - apply starts_value_skip, (scan_once_first fuel _ (x, REST)). now apply Hx. }
  destruct d as [|[k' x'] d].
  - cbn [map join] in *.
    destruct (Step ("}"%char :: rest)) as (E2 & E3).
    { cbn; auto. }
    { unfold entry in Hf. rewrite !length_app in Hf. lia. }
    rewrite entry_app. cbn [after].
    replace (Ascii.eqb quote quote) with true by reflexivity.
    rewrite scanstring_escape_ascii by assumption. cbn [bind].
    replace (skip_whitespace (":"%char :: _)) with
      (":"%char :: dumps x ++ "}"%char :: rest) by reflexivity.
    cbn [after]. replace (Ascii.eqb ":" ":") with true by reflexivity.
    rewrite E3, E2. cbn [bind]. cbv zeta.
    rewrite dict_set_fresh by assumption. reflexivity.
  - rewrite !map_cons, join_cons2 in *. rewrite <- !map_cons in *.
    rewrite !length_app in Hf. cbn [length] in Hf.
    rewrite <- !app_assoc. cbn [app].
    destruct (Step (","%char :: join [","%char] (map entry ((k', x') :: d))
                      ++ "}"%char :: rest)) as (E2 & E3).
    { cbn; auto. }
    { unfold entry in Hf. rewrite !length_app in Hf. lia. }
    rewrite entry_app. cbn [after].
    replace (Ascii.eqb quote quote) with true by reflexivity.
    rewrite scanstring_escape_ascii by assumption. cbn [bind].
    replace (skip_whitespace (":"%char :: _)) with
      (":"%char :: dumps x ++ ","%char :: join [","%char] (map entry ((k', x') :: d))
                      ++ "}"%char :: rest) by reflexivity.
    cbn [after]. replace (Ascii.eqb ":" ":") with true by reflexivity.
    rewrite E3, E2. cbn [bind]. cbv zeta.
    rewrite dict_set_fresh by assumption.
    replace (skip_whitespace (","%char :: _)) with
      (","%char :: join [","%char] (map entry ((k', x') :: d)) ++ "}"%char :: rest)
      by reflexivity.
    cbn [after]. replace (Ascii.eqb "," "}") with false by reflexivity.
    replace (Ascii.eqb "," ",") with true by reflexivity.
    assert (Hq : skip_whitespace
                   (join [","%char] (map entry ((k', x') :: d)) ++ "}"%char :: rest)
                 = join [","%char] (map entry ((k', x') :: d)) ++ "}"%char :: rest).
    { destruct d; reflexivity. }
    rewrite Hq, IH; [now rewrite <- app_assoc|discriminate|assumption| |lia].
    now rewrite <- app_assoc.
Qed.

(** *** The round trip *)

Lemma scan_once_dumps v : wf_value float_of_str float_repr v -> reads_back v.
Proof.
  induction v as [|b|z|f|s|l IH|d IH] using value_induction; intros Hwf fuel rest Hr Hf;
    (destruct fuel as [|fuel]; [lia|]).
  - reflexivity.
  - destruct b; reflexivity.
  - now apply scan_once_int.
  - now apply Hwf.
  - now apply scan_once_str.
  - apply wf_list in Hwf.
    assert (Hl : Forall reads_back l).
    { clear Hf. induction IH as [|x l Hx _ IHl]; constructor;
        inversion Hwf; subst; auto. }
    destruct l as [|x l]; [reflexivity|].
    rewrite json_dumps_list in *. cbn [app length] in *.
    rewrite length_app in Hf. cbn [length] in Hf.
    rewrite <- app_assoc. cbn [app]. rewrite scan_once_S. cbv zeta.
    replace (Ascii.eqb "[" quote) with false by reflexivity.
    replace (Ascii.eqb "[" "{") with false by reflexivity.
    replace (Ascii.eqb "[" "[") with true by reflexivity.
    destruct (array_loop_dumps (x :: l) ltac:(discriminate) Hl fuel [] rest
                ltac:(lia)) as [Hs Ha].
    rewrite (starts_value_skip _ Hs), Ha.
    pose proof Hs as Hs'. unfold starts_value in Hs'.
    destruct (join _ _ ++ _) as [|c t] eqn:E; [discriminate|].
    cbn [after]. unfold char_in in Hs'. cbn [existsb] in Hs'.
    apply negb_true_iff in Hs'.
    repeat (apply orb_false_iff in Hs'; destruct Hs' as [? Hs']).
    now replace (Ascii.eqb c "]") with false.
  - apply wf_dict in Hwf. destruct Hwf as [Hn Hwf].
    assert (Hd : Forall (fun kv => reads_back (snd kv)) d).
    { clear Hf Hn. induction IH as [|x l Hx _ IHl]; constructor;
        inversion Hwf as [|? ? [? ?] ?]; subst; auto. }
    assert (Hk : Forall (fun kv => Utf8.utf8_valid (fst kv) = true) d).
    { eapply Forall_impl; [|exact Hwf]. now intros kv [? _]. }
    destruct d as [|[k x] d]; [reflexivity|].
    rewrite json_dumps_dict in *. cbn [app length] in *.
    rewrite length_app in Hf. cbn [length] in Hf.
    rewrite <- app_assoc. cbn [app]. rewrite scan_once_S. cbv zeta.
    replace (Ascii.eqb "{" quote) with false by reflexivity.
    replace (Ascii.eqb "{" "{") with true by reflexivity.
    assert (Hq : forall T, skip_whitespace (join [","%char] (map entry ((k, x) :: d)) ++ T)
                 = join [","%char] (map entry ((k, x) :: d)) ++ T /\
                 after "}" (join [","%char] (map entry ((k, x) :: d)) ++ T) = None).
    { intros T. destruct d; split; reflexivity. }
    destruct (Hq ("}"%char :: rest)) as [-> ->].
    apply (object_loop_dumps ((k, x) :: d) ltac:(discriminate) Hd Hk fuel []);
      [exact Hn | lia].
Qed.

(** [json.loads(json.dumps(v)) == v] for a well-formed value. *)
Lemma json_loads_dumps v :
  wf_value float_of_str float_repr v -> json_loads float_of_str (dumps v) = Ok v.
Proof.
  intros Hwf.
  pose proof (scan_once_dumps v Hwf (S (length (dumps v))) [] I ltac:(lia)) as H.
  rewrite app_nil_r in H.
  pose proof (scan_once_first _ _ _ H) as Hs.
  unfold json_loads.
  now rewrite (starts_value_bom _ Hs), (starts_value_skip _ Hs), H.
Qed.

End WellFormed.
End JsonFacts.

(** ** Encoding, then verifying *)

Module RoundTrip.
Import Encoder Verifier.

Section RoundTrip.
Context {pyfloat : Type}.
Variable float_of_str : str -> option pyfloat.
Variable float_repr : pyfloat -> str.
Variable hmac_digest : hash_algorithm -> list ascii -> list ascii -> list ascii.

(** A signature is unpadded URL-safe text. *)
Lemma sign_token_body header_b64 payload_b64 (alg : value pyfloat) secret sg :
  Signer.sign_token hmac_digest header_b64 payload_b64 alg secret = Ok sg ->
  exists bs, sg = map CodecFacts.to_url (CodecFacts.body bs).
Proof.
  unfold Signer.sign_token.
  destruct (if eq_str alg "HS256" then _ else _) as [ha|]; cbn [bind];
    [|discriminate].
  destruct (str_encode secret) as [key|]; cbn [bind]; [|discriminate].
  destruct (str_encode _) as [msg|]; cbn [bind]; [|discriminate].
  rewrite CodecFacts.rstrip_urlsafe_b64encode. intros [= <-]. eauto.
Qed.

Lemma url_body_no_dot bs :
  Forall (fun c => c <> "."%char) (map CodecFacts.to_url (CodecFacts.body bs)).
Proof.
  apply Forall_forall. intros c Hc. now apply CodecFacts.url_body_chars in Hc.
Qed.

Lemma url_body_no_pad bs :
  ~ In "="%char (map CodecFacts.to_url (CodecFacts.body bs)).
Proof. intros Hc. now apply CodecFacts.url_body_chars in Hc. Qed.

(** The token the encoder returns, and what its validations have
    established. *)
Lemma encode_jwt_inv (h p : dict pyfloat) secret t_actual token :
  encode_jwt float_of_str float_repr hmac_digest h p secret t_actual = Ok token ->
  exists a sg,
    dict_get h "alg" = Some (VStr a) /\
    (a = ("HS256" : str) \/ a = ("HS384" : str)) /\
    Utf8.utf8_valid (json_dumps float_repr (VDict h)) = true /\
    Utf8.utf8_valid (json_dumps float_repr (VDict p)) = true /\
    Signer.sign_token hmac_digest
      (map CodecFacts.to_url (CodecFacts.body (json_dumps float_repr (VDict h))))
      (map CodecFacts.to_url (CodecFacts.body (json_dumps float_repr (VDict p))))
      (VStr a : value pyfloat) secret = Ok sg /\
    token =
      map CodecFacts.to_url (CodecFacts.body (json_dumps float_repr (VDict h)))
      ++ "."%char ::
      map CodecFacts.to_url (CodecFacts.body (json_dumps float_repr (VDict p)))
      ++ "."%char :: sg.
Proof.
  unfold encode_jwt.
  destruct (Syntactic.analyze_syntax _ _ _) as [r|]; cbn [bind]; [|discriminate].
  destruct (Syntactic.valid r); cbn [negb]; [|discriminate].
  unfold Semantic.analyze.
  destruct (Semantic.validate_header h) as [[]|] eqn:Eh; cbn [bind];
    [|discriminate].
  destruct (Semantic.validate_payload p t_actual) as [[]|]; cbn [bind];
    [|discriminate].
  apply SemanticFacts.validate_header_ok in Eh as [(a & Ha & Hs) _].
  rewrite SemanticFacts.subscript_get, Ha. cbn [bind].
  destruct (encode_base64url (json_dumps float_repr (VDict h))) as [hb|] eqn:Ehb;
    cbn [bind]; [|discriminate].
  destruct (encode_base64url (json_dumps float_repr (VDict p))) as [pb|] eqn:Epb;
    cbn [bind]; [|discriminate].
  apply CodecFacts.encode_base64url_inv in Ehb as [Vh ->].
  apply CodecFacts.encode_base64url_inv in Epb as [Vp ->].
  destruct (Signer.sign_token _ _ _ _ _) as [sg|] eqn:Es; cbn [bind];
    [|discriminate].
  intros [= <-]. exists a, sg. repeat split; auto.
Qed.

(** C1, as the code has it. For every well-formed header map and payload map (their
    strings are text, with no lone surrogate, and their floats are read
    back by [json.loads]) and every secret with which the encoder returns a
    token (the maps pass the structural and the semantic validations), the
    verifier, given the token and the same secret, returns [valid = True]
    with the header and the payload that were encoded. *)
Theorem verify_encode (h p : dict pyfloat) (secret : str) (t_actual : Z)
    (token : str) :
  wf_value float_of_str float_repr (VDict h) ->
  wf_value float_of_str float_repr (VDict p) ->
  encode_jwt float_of_str float_repr hmac_digest h p secret t_actual = Ok token ->
  exists alg,
    verify_jwt_signature float_of_str hmac_digest token secret =
    {| valid := true; algorithm := Some alg; header := Some (VDict h);
       payload := Some (VDict p); error := None |}.
Proof.
  intros Wh Wp Henc.
  pose proof (JsonFacts.json_loads_dumps float_of_str float_repr _ Wh) as Hh.
  pose proof (JsonFacts.json_loads_dumps float_of_str float_repr _ Wp) as Hp.
  apply encode_jwt_inv in Henc
    as (a & sg & Ha & Hs & Vh & Vp & Hsign & ->).
  destruct (sign_token_body _ _ _ _ _ Hsign) as [bs ->].
  exists (VStr a : value pyfloat).
  unfold verify_jwt_signature, verify_body.
  rewrite split_app by apply url_body_no_dot.
  rewrite split_app by apply url_body_no_dot.
  rewrite split_no_sep by apply url_body_no_dot.
  unfold decode_json.
  rewrite (CodecFacts.decode_base64url_body _ Vh). cbn [bind].
  rewrite Hh. cbn [catch_ValueError py_in bind].
  unfold dict_has. rewrite Ha. cbn [negb getitem bind].
  rewrite Ha. cbn [bind].
  assert (Hsup : existsb (eq_str (VStr a : value pyfloat))
                    ["HS256" : str; "HS384" : str] = true).
  { cbn [existsb eq_str]. rewrite orb_false_r, orb_true_iff, !str_eqb_eq.
    exact Hs. }
  rewrite Hsup. cbn [negb]. rewrite Hsign. cbn [catch_ValueError].
  rewrite (rstrip_absent "=" _ (url_body_no_pad bs)).
  unfold compare_digest.
  rewrite CodecFacts.url_body_ascii, str_eqb_refl. cbn [andb bind negb].
  rewrite (CodecFacts.decode_base64url_body _ Vp). cbn [bind].
  rewrite Hp. reflexivity.
Qed.

End RoundTrip.

(** The hypotheses of the theorem hold of a header, a payload with a
    string that is not ASCII and a float, and a secret. *)
Lemma verify_encode_witness :
  let h : dict Instance.pyfloat :=
    [("alg" : str, VStr "HS256"); ("typ" : str, VStr "JWT")] in
  let p : dict Instance.pyfloat :=
    [("sub" : str, VStr "1234567890"); ("name" : str, VStr "John Doe");
     ("iat" : str, VInt 1516239022); ("aud" : str, VList [VStr "café"]);
     ("score" : str, VFloat ("1.5" : str))] in
  wf_value Instance.float_of_str Instance.float_repr (VDict h) /\
  wf_value Instance.float_of_str Instance.float_repr (VDict p) /\
  exists token,
    Instance.encode_jwt h p "secret" 1700000000 = Ok token /\
    exists alg,
      Instance.verify_jwt_signature token "secret" =
      {| valid := true; algorithm := Some alg; header := Some (VDict h);
         payload := Some (VDict p); error := None |}.
Proof.
  cbv zeta.
  assert (Wh : wf_value Instance.float_of_str Instance.float_repr
                 (VDict [("alg" : str, VStr "HS256"); ("typ" : str, VStr "JWT")])).
  { split; [|cbn; tauto].
    repeat constructor; cbn; intuition discriminate. }
  assert (Wf : float_reads_back Instance.float_of_str Instance.float_repr
                 ("1.5" : str)).
  { intros fuel [|c r] Hr; [reflexivity|].
    destruct Hr as [-> | [-> | ->]]; reflexivity. }
  assert (Wp : wf_value Instance.float_of_str Instance.float_repr
                 (VDict [("sub" : str, VStr "1234567890");
                         ("name" : str, VStr "John Doe");
                         ("iat" : str, VInt 1516239022);
                         ("aud" : str, VList [VStr "café"]);
                         ("score" : str, VFloat ("1.5" : str))])).
  { split; [|cbn -[float_reads_back]; tauto].
    repeat constructor; cbn; intuition discriminate. }
  split; [exact Wh|]. split; [exact Wp|].
  eexists. split; [vm_compute; reflexivity|].
  apply (verify_encode Instance.float_of_str Instance.float_repr
           Instance.hmac_digest
           [("alg" : str, VStr "HS256"); ("typ" : str, VStr "JWT")]
           [("sub" : str, VStr "1234567890"); ("name" : str, VStr "John Doe");
            ("iat" : str, VInt 1516239022); ("aud" : str, VList [VStr "café"]);
            ("score" : str, VFloat ("1.5" : str))]
           "secret" 1700000000 _ Wh Wp).
  vm_compute. reflexivity.
Defined.

(** The two surrogates [U+D800] and [U+DC00], one after the other: a string
    of two characters that is no text. *)
Definition surrogates : str :=
  ["237"; "160"; "128"; "237"; "176"; "128"]%char.

(** C1, as stated for every map that passes the validations, fails: the
    encoder accepts the payload [{"sub": surrogates}], [json.dumps] writes the two
    escapes [\ud800\udc00] for its string, and [json.loads] reads them as
    the one character [U+10000]: the verifier returns [valid = True] and a
    payload that is not the one encoded. *)
Lemma surrogates_not_returned :
  let h : dict Instance.pyfloat :=
    [("alg" : str, VStr "HS256"); ("typ" : str, VStr "JWT")] in
  let p : dict Instance.pyfloat := [("sub" : str, VStr surrogates)] in
  exists token,
    Instance.encode_jwt h p "secret" 1700000000 = Ok token /\
    valid (Instance.verify_jwt_signature token "secret") = true /\
    payload (Instance.verify_jwt_signature token "secret")
    = Some (VDict [("sub" : str, VStr (Utf8.chr 65536))]) /\
    payload (Instance.verify_jwt_signature token "secret") <> Some (VDict p).
Proof.
  cbv zeta. eexists. split; [vm_compute; reflexivity|].
  split; [vm_compute; reflexivity|].
  split; [vm_compute; reflexivity|].
  vm_compute. discriminate.
Qed.

End RoundTrip.
